(** * The undefined-behaviour trap runtime of OP-TEE

    A shallow embedding of the sanitizer runtime: the source location
    header with its reserved "reported" bit, the deduplication test
    [was_already_reported], the reporter [ubsan_handle_error], the halt
    wrapper [ubsan_panic] and the sixteen [__ubsan_handle_*] entry points.

    Unsigned 32-bit words are integers of [Z] in [0, 2^32); pointers are
    integers; the memory holds one instrumentation descriptor per address.
    Effects (memory, diagnostic output, calls of the panic primitive) are
    threaded through a small state monad whose outcomes tell a return to the
    caller apart from a loss of control. *)

From Stdlib Require Import ZArith String List Bool Lia DecimalString.
From stdpp Require Import gmap strings.

Local Open Scope string_scope.
Local Open Scope list_scope.
Local Open Scope Z_scope.

(** ** Machine words *)

Definition u32 (x : Z) : Prop := 0 <= x < 2 ^ 32.

(** Modelled from the spec: [BIT32] of util.h, a header that is not among
    the sources.  [BIT32(nr)] is the 32-bit constant with only bit [nr]
    set, so that [BIT32(31)] is "the top bit of column". *)
Definition BIT32 (nr : Z) : Z := Z.land (Z.shiftl 1 nr) (Z.ones 32).

(** [~x] on a [uint32_t]. *)
Definition not32 (x : Z) : Z := Z.land (Z.lnot x) (Z.ones 32).

Definition UBSAN_LOC_REPORTED : Z := BIT32 31.

(** ** Descriptors *)

Record source_location := {
  file_name : string;
  line : Z;
  column : Z
}.

(** The instrumentation structures.  Each starts with its [loc]; the other
    members are pointers to type descriptors, or small integers. *)
Inductive descriptor :=
| type_mismatch_data (loc : source_location)
    (type : Z) (alignment : Z) (type_check_kind : Z)
| overflow_data (loc : source_location) (type : Z)
| shift_out_of_bounds_data (loc : source_location) (lhs_type rhs_type : Z)
| out_of_bounds_data (loc : source_location) (array_type index_type : Z)
| unreachable_data (loc : source_location)
| vla_bound_data (loc : source_location) (type : Z)
| invalid_value_data (loc : source_location) (type : Z)
| nonnull_arg_data (loc : source_location)
| invalid_builtin_data (loc : source_location) (kind : Z).

(** [data->loc]: the member at offset 0, whatever the structure is. *)
Definition loc_of (d : descriptor) : source_location :=
  match d with
  | type_mismatch_data l _ _ _ => l
  | overflow_data l _ => l
  | shift_out_of_bounds_data l _ _ => l
  | out_of_bounds_data l _ _ => l
  | unreachable_data l => l
  | vla_bound_data l _ => l
  | invalid_value_data l _ => l
  | nonnull_arg_data l => l
  | invalid_builtin_data l _ => l
  end.

(** A store to [data->loc.column]. *)
Definition set_column (c : Z) (d : descriptor) : descriptor :=
  let upd l := {| file_name := file_name l; line := line l; column := c |} in
  match d with
  | type_mismatch_data l t a k => type_mismatch_data (upd l) t a k
  | overflow_data l t => overflow_data (upd l) t
  | shift_out_of_bounds_data l a b => shift_out_of_bounds_data (upd l) a b
  | out_of_bounds_data l a b => out_of_bounds_data (upd l) a b
  | unreachable_data l => unreachable_data (upd l)
  | vla_bound_data l t => vla_bound_data (upd l) t
  | invalid_value_data l t => invalid_value_data (upd l) t
  | nonnull_arg_data l => nonnull_arg_data (upd l)
  | invalid_builtin_data l k => invalid_builtin_data (upd l) k
  end.

(** ** Program state and outcomes *)

(** The status the TA build hands to [_utee_panic]; only its name matters
    here. *)
Inductive tee_result := TEE_ERROR_GENERIC.

(** The three builds of the file and the panic primitive each one calls. *)
Inductive build := KERNEL | LDELF | USER_TA.

Inductive panic_call :=
| panic
| _ldelf_panic (code : Z)
| _utee_panic (code : tee_result).

Inductive event :=
| Emsg (text : string)
| Panic (call : panic_call).

Record state := {
  heap : gmap Z descriptor;
  should_panic : bool;
  trace : list event
}.

(** What surrounds a run: the build, whether the panic primitive hands
    control back (ldelf's and the TA's are not declared noreturn), and how
    many turns of an idle loop are observed. *)
Record env := {
  context : build;
  primitive_returns : bool;
  loop_fuel : nat
}.

Inductive outcome (A : Type) :=
| Returned (a : A) (s : state)
| Halted (s : state)
| Spinning (s : state)
| Fault.

Arguments Returned {A} a s.
Arguments Halted {A} s.
Arguments Spinning {A} s.
Arguments Fault {A}.

Definition M (A : Type) : Type := env -> state -> outcome A.

Definition ret {A} (a : A) : M A := fun _ s => Returned a s.

Definition bind {A B} (m : M A) (k : A -> M B) : M B :=
  fun e s =>
    match m e s with
    | Returned a s' => k a e s'
    | Halted s' => Halted s'
    | Spinning s' => Spinning s'
    | Fault => Fault
    end.

Notation "'let*' x := m 'in' k" := (bind m (fun x => k))
  (at level 10, x name, m at level 100, k at level 200).
Notation "m >>> k" := (bind m (fun _ => k))
  (at level 90, right associativity).

Definition with_heap (h : gmap Z descriptor) (s : state) : state :=
  {| heap := h; should_panic := should_panic s; trace := trace s |}.

Definition log (ev : event) (s : state) : state :=
  {| heap := heap s; should_panic := should_panic s;
     trace := trace s ++ [ev] |}.

(** A read of the location header behind [loc]. *)
Definition load_loc (loc : Z) : M source_location :=
  fun _ s =>
    match heap s !! loc with
    | Some d => Returned (loc_of d) s
    | None => Fault
    end.

Definition read_should_panic : M bool :=
  fun _ s => Returned (should_panic s) s.

(** Modelled from the spec: [atomic_cas_u32] of atomic.h, a header that is
    not among the sources.  "A single atomic operation on the whole column
    word": the word behind [p] is compared with the expected value [oval]
    and, when they are equal, replaced by [nval], all in one step.  The
    result tells whether the store happened, and carries the value the
    caller's [oval] variable holds afterwards. *)
Definition atomic_cas_u32 (p : Z) (oval nval : Z) : M (bool * Z) :=
  fun _ s =>
    match heap s !! p with
    | Some d =>
        if column (loc_of d) =? oval
        then Returned (true, oval)
               (with_heap (<[p := set_column nval d]> (heap s)) s)
        else Returned (false, column (loc_of d)) s
    | None => Fault
    end.

(** Modelled from the spec: [EMSG_RAW] of trace.h, the message sink
    [emit(line)]: one line written to the diagnostic output, in order. *)
Definition EMSG_RAW (text : string) : M unit :=
  fun _ s => Returned tt (log (Emsg text) s).

(** Modelled from the spec: the panic primitive of the build (kernel/panic.h,
    ldelf_syscalls.h, utee_syscalls.h).  The call is recorded; whether
    control comes back is left to the environment. *)
Definition platform_panic : M unit :=
  fun e s =>
    let call :=
      match context e with
      | KERNEL => panic
      | LDELF => _ldelf_panic 2
      | USER_TA => _utee_panic TEE_ERROR_GENERIC
      end in
    if primitive_returns e
    then Returned tt (log (Panic call) s)
    else Halted (log (Panic call) s).

(** ** Strings as C sees them *)

(** The byte a [char *] points at; the terminator when the text is over. *)
Definition byte0 (s : string) : Z :=
  match s with
  | EmptyString => 0
  | String c _ => Z.of_N (Ascii.N_of_ascii c)
  end.

(** Pointer arithmetic on a [char *]: [s + n]. *)
Fixpoint advance (n : nat) (s : string) : string :=
  match n, s with
  | O, _ => s
  | S n', String _ r => advance n' r
  | S _, EmptyString => EmptyString
  end.

Fixpoint memcmp (s1 s2 : string) (n : nat) : Z :=
  match n with
  | O => 0
  | S n' =>
      if byte0 s1 =? byte0 s2
      then memcmp (advance 1 s1) (advance 1 s2) n'
      else byte0 s1 - byte0 s2
  end.

(** The conversion [%" PRIu32 "] of the format. *)
Definition PRIu32 (x : Z) : string :=
  NilEmpty.string_of_uint (N.to_uint (Z.to_N x)).

(** ["Undefined behavior %s at %s:%" PRIu32 " col %" PRIu32] *)
Definition format (f file : string) (l c : Z) : string :=
  "Undefined behavior " +:+ f +:+ " at " +:+ file +:+ ":" +:+ PRIu32 l
  +:+ " col " +:+ PRIu32 c.

(** ** The runtime *)

Fixpoint while_ (cond : M bool) (body : M unit) (fuel : nat) : M unit :=
  fun e s =>
    match fuel with
    | O => Spinning s
    | S n =>
        (let* c := cond in
         if (c : bool) then body >>> while_ cond body n else ret tt) e s
    end.

Definition ubsan_panic : M unit :=
  platform_panic >>>
  (fun e => while_ (ret true) (ret tt) (loop_fuel e) e).

Definition was_already_reported (loc : Z) : M bool :=
  let* l := load_loc loc in
  let column := column l in
  if negb (Z.land column UBSAN_LOC_REPORTED =? 0)
  then ret true
  else
    let* r := atomic_cas_u32 loc column (Z.lor column UBSAN_LOC_REPORTED) in
    ret (negb (fst r)).

Definition func_prefix : string := "__ubsan_handle".

(** [sizeof(func_prefix)]: the characters and the terminator. *)
Definition sizeof_func_prefix : nat := S (String.length func_prefix).

Definition ubsan_handle_error (func : string) (loc : Z) (panic_flag : bool)
  : M unit :=
  let f := func in
  let* reported := was_already_reported loc in
  if (reported : bool) then ret tt
  else
    let f :=
      if memcmp f func_prefix (sizeof_func_prefix - 1) =? 0
      then advance sizeof_func_prefix f
      else f in
    let* l := load_loc loc in
    EMSG_RAW (format f (file_name l) (line l)
                (Z.land (column l) (not32 UBSAN_LOC_REPORTED))) >>>
    if panic_flag then ubsan_panic else ret tt.

Definition __ubsan_handle_type_mismatch (data : Z) (ptr : Z) : M unit :=
  let* flag := read_should_panic in
  ubsan_handle_error "__ubsan_handle_type_mismatch" data flag.

Definition __ubsan_handle_type_mismatch_v1 (data_ : Z) (ptr : Z) : M unit :=
  let data := data_ in
  let* flag := read_should_panic in
  ubsan_handle_error "__ubsan_handle_type_mismatch_v1" data flag.

Definition __ubsan_handle_add_overflow (data_ : Z) (lhs : Z) (rhs : Z) : M unit :=
  let data := data_ in
  let* flag := read_should_panic in
  ubsan_handle_error "__ubsan_handle_add_overflow" data flag.

Definition __ubsan_handle_sub_overflow (data_ : Z) (lhs : Z) (rhs : Z) : M unit :=
  let data := data_ in
  let* flag := read_should_panic in
  ubsan_handle_error "__ubsan_handle_sub_overflow" data flag.

Definition __ubsan_handle_mul_overflow (data_ : Z) (lhs : Z) (rhs : Z) : M unit :=
  let data := data_ in
  let* flag := read_should_panic in
  ubsan_handle_error "__ubsan_handle_mul_overflow" data flag.

Definition __ubsan_handle_negate_overflow (data_ : Z) (old_val : Z) : M unit :=
  let data := data_ in
  let* flag := read_should_panic in
  ubsan_handle_error "__ubsan_handle_negate_overflow" data flag.

Definition __ubsan_handle_divrem_overflow (data_ : Z) (lhs : Z) (rhs : Z) : M unit :=
  let data := data_ in
  let* flag := read_should_panic in
  ubsan_handle_error "__ubsan_handle_divrem_overflow" data flag.

Definition __ubsan_handle_pointer_overflow (data_ : Z) (lhs : Z) (rhs : Z) : M unit :=
  let data := data_ in
  let* flag := read_should_panic in
  ubsan_handle_error "__ubsan_handle_pointer_overflow" data flag.

Definition __ubsan_handle_shift_out_of_bounds (data_ : Z) (lhs : Z) (rhs : Z) : M unit :=
  let data := data_ in
  let* flag := read_should_panic in
  ubsan_handle_error "__ubsan_handle_shift_out_of_bounds" data flag.

Definition __ubsan_handle_out_of_bounds (data_ : Z) (idx : Z) : M unit :=
  let data := data_ in
  let* flag := read_should_panic in
  ubsan_handle_error "__ubsan_handle_out_of_bounds" data flag.

Definition __ubsan_handle_builtin_unreachable (data_ : Z) : M unit :=
  let data := data_ in
  ubsan_handle_error "__ubsan_handle_builtin_unreachable" data false >>>
  ubsan_panic.

Definition __ubsan_handle_missing_return (data_ : Z) : M unit :=
  let data := data_ in
  ubsan_handle_error "__ubsan_handle_missing_return" data false >>>
  ubsan_panic.

Definition __ubsan_handle_vla_bound_not_positive (data_ : Z) (bound : Z) : M unit :=
  let data := data_ in
  let* flag := read_should_panic in
  ubsan_handle_error "__ubsan_handle_vla_bound_not_positive" data flag.

Definition __ubsan_handle_load_invalid_value (data_ : Z) (val : Z) : M unit :=
  let data := data_ in
  let* flag := read_should_panic in
  ubsan_handle_error "__ubsan_handle_load_invalid_value" data flag.

(** [arg_no] is a parameter only when the compiler is older than GCC 6. *)
Definition __ubsan_handle_nonnull_arg (data_ : Z) (arg_no : option Z)
  : M unit :=
  let data := data_ in
  let* flag := read_should_panic in
  ubsan_handle_error "__ubsan_handle_nonnull_arg" data flag.

Definition __ubsan_handle_invalid_builtin (data_ : Z) : M unit :=
  let data := data_ in
  let* flag := read_should_panic in
  ubsan_handle_error "__ubsan_handle_invalid_builtin" data flag.

(** ** The entry points as a family *)

(** A call site of the instrumentation: which handler it calls and the
    operand values it passes next to the descriptor. *)
Inductive entry_point :=
| type_mismatch (ptr : Z)
| type_mismatch_v1 (ptr : Z)
| add_overflow (lhs rhs : Z)
| sub_overflow (lhs rhs : Z)
| mul_overflow (lhs rhs : Z)
| negate_overflow (old_val : Z)
| divrem_overflow (lhs rhs : Z)
| pointer_overflow (lhs rhs : Z)
| shift_out_of_bounds (lhs rhs : Z)
| out_of_bounds (idx : Z)
| builtin_unreachable
| missing_return
| vla_bound_not_positive (bound : Z)
| load_invalid_value (val : Z)
| nonnull_arg (arg_no : option Z)
| invalid_builtin.

Definition call (ep : entry_point) (data : Z) : M unit :=
  match ep with
  | type_mismatch ptr => __ubsan_handle_type_mismatch data ptr
  | type_mismatch_v1 ptr => __ubsan_handle_type_mismatch_v1 data ptr
  | add_overflow lhs rhs => __ubsan_handle_add_overflow data lhs rhs
  | sub_overflow lhs rhs => __ubsan_handle_sub_overflow data lhs rhs
  | mul_overflow lhs rhs => __ubsan_handle_mul_overflow data lhs rhs
  | negate_overflow old_val => __ubsan_handle_negate_overflow data old_val
  | divrem_overflow lhs rhs => __ubsan_handle_divrem_overflow data lhs rhs
  | pointer_overflow lhs rhs => __ubsan_handle_pointer_overflow data lhs rhs
  | shift_out_of_bounds lhs rhs =>
      __ubsan_handle_shift_out_of_bounds data lhs rhs
  | out_of_bounds idx => __ubsan_handle_out_of_bounds data idx
  | builtin_unreachable => __ubsan_handle_builtin_unreachable data
  | missing_return => __ubsan_handle_missing_return data
  | vla_bound_not_positive bound =>
      __ubsan_handle_vla_bound_not_positive data bound
  | load_invalid_value val => __ubsan_handle_load_invalid_value data val
  | nonnull_arg arg_no => __ubsan_handle_nonnull_arg data arg_no
  | invalid_builtin => __ubsan_handle_invalid_builtin data
  end.

(** The handlers declared [__noreturn]. *)
Definition noreturn (ep : entry_point) : bool :=
  match ep with
  | builtin_unreachable | missing_return => true
  | _ => false
  end.

(** The value of [__func__] in each handler. *)
Definition func_of (ep : entry_point) : string :=
  match ep with
  | type_mismatch _ => "__ubsan_handle_type_mismatch"
  | type_mismatch_v1 _ => "__ubsan_handle_type_mismatch_v1"
  | add_overflow _ _ => "__ubsan_handle_add_overflow"
  | sub_overflow _ _ => "__ubsan_handle_sub_overflow"
  | mul_overflow _ _ => "__ubsan_handle_mul_overflow"
  | negate_overflow _ => "__ubsan_handle_negate_overflow"
  | divrem_overflow _ _ => "__ubsan_handle_divrem_overflow"
  | pointer_overflow _ _ => "__ubsan_handle_pointer_overflow"
  | shift_out_of_bounds _ _ => "__ubsan_handle_shift_out_of_bounds"
  | out_of_bounds _ => "__ubsan_handle_out_of_bounds"
  | builtin_unreachable => "__ubsan_handle_builtin_unreachable"
  | missing_return => "__ubsan_handle_missing_return"
  | vla_bound_not_positive _ => "__ubsan_handle_vla_bound_not_positive"
  | load_invalid_value _ => "__ubsan_handle_load_invalid_value"
  | nonnull_arg _ => "__ubsan_handle_nonnull_arg"
  | invalid_builtin => "__ubsan_handle_invalid_builtin"
  end.

(** Instrumented code running into one violation after the other: each
    call starts when the one before it has returned. *)
Fixpoint run (calls : list (entry_point * Z)) : M unit :=
  match calls with
  | [] => ret tt
  | (ep, data) :: rest => call ep data >>> run rest
  end.

(** ** Observations *)

Definition final_state {A} (o : outcome A) : option state :=
  match o with
  | Returned _ s | Halted s | Spinning s => Some s
  | Fault => None
  end.

Definition returns {A} (o : outcome A) : bool :=
  match o with
  | Returned _ _ => true
  | _ => false
  end.

(** The lines written to the diagnostic output. *)
Fixpoint emitted (t : list event) : list string :=
  match t with
  | [] => []
  | Emsg text :: t' => text :: emitted t'
  | Panic _ :: t' => emitted t'
  end.

(** The calls of the panic primitive. *)
Fixpoint panics (t : list event) : list panic_call :=
  match t with
  | [] => []
  | Emsg _ :: t' => panics t'
  | Panic c :: t' => c :: panics t'
  end.

Definition reported (c : Z) : bool := Z.testbit c 31.

(** The column as the compiler meant it. *)
Definition semantic_column (c : Z) : Z :=
  Z.land c (not32 UBSAN_LOC_REPORTED).

(** The state once the reserved bit of the location behind [loc] is set. *)
Definition mark (loc : Z) (d : descriptor) (s : state) : state :=
  with_heap
    (<[loc := set_column (Z.lor (column (loc_of d)) UBSAN_LOC_REPORTED) d]>
       (heap s)) s.

Definition which_panic (e : env) : panic_call :=
  match context e with
  | KERNEL => panic
  | LDELF => _ldelf_panic 2
  | USER_TA => _utee_panic TEE_ERROR_GENERIC
  end.

(** Control is gone for good: with the primitive, or in the loop behind it. *)
Definition lost {A} (e : env) (s : state) : outcome A :=
  if primitive_returns e then Spinning s else Halted s.

(** The name printed for a handler. *)
Definition event_name (func : string) : string :=
  if memcmp func func_prefix (sizeof_func_prefix - 1) =? 0
  then advance sizeof_func_prefix func
  else func.

(** The state after the line of a first report is out. *)
Definition announced (func : string) (loc : Z) (d : descriptor) (s : state)
  : state :=
  log (Emsg (format (event_name func) (file_name (loc_of d)) (line (loc_of d))
               (semantic_column (Z.lor (column (loc_of d)) UBSAN_LOC_REPORTED))))
      (mark loc d s).

(** Calls of one descriptor, one after the other. *)
Definition calls_on (data : Z) (eps : list entry_point)
  : list (entry_point * Z) :=
  map (fun ep => (ep, data)) eps.

Definition all_return (eps : list entry_point) : Prop :=
  Forall (fun ep => noreturn ep = false) eps.

(** ** Vocabulary of the statements *)

(** Every descriptor is still there and a set flag is still set. *)
Definition flags_kept (s s' : state) : Prop :=
  forall p d,
    heap s !! p = Some d ->
    exists d', heap s' !! p = Some d' /\
               (reported (column (loc_of d)) = true ->
                reported (column (loc_of d')) = true).

(** The name of each handler without ["__ubsan_handle_"]. *)
Definition short_name (ep : entry_point) : string :=
  match ep with
  | type_mismatch _ => "type_mismatch"
  | type_mismatch_v1 _ => "type_mismatch_v1"
  | add_overflow _ _ => "add_overflow"
  | sub_overflow _ _ => "sub_overflow"
  | mul_overflow _ _ => "mul_overflow"
  | negate_overflow _ => "negate_overflow"
  | divrem_overflow _ _ => "divrem_overflow"
  | pointer_overflow _ _ => "pointer_overflow"
  | shift_out_of_bounds _ _ => "shift_out_of_bounds"
  | out_of_bounds _ => "out_of_bounds"
  | builtin_unreachable => "builtin_unreachable"
  | missing_return => "missing_return"
  | vla_bound_not_positive _ => "vla_bound_not_positive"
  | load_invalid_value _ => "load_invalid_value"
  | nonnull_arg _ => "nonnull_arg"
  | invalid_builtin => "invalid_builtin"
  end.

Definition contains (part whole : string) : Prop :=
  exists before after, whole = before +:+ part +:+ after.

(** Both end the same way: back in the caller, with the primitive, in the
    idle loop, or in a fault. *)
Definition same_control {A} (o1 o2 : outcome A) : Prop :=
  match o1, o2 with
  | Returned _ _, Returned _ _ => True
  | Halted _, Halted _ => True
  | Spinning _, Spinning _ => True
  | Fault, Fault => True
  | _, _ => False
  end.

(** Two events that are the same, or two lines that differ in the name of
    the handler only. *)
Definition same_but_name (ev ev1 : event) : Prop :=
  ev = ev1 \/
  exists file l c,
    ev = Emsg (format "type_mismatch" file l c) /\
    ev1 = Emsg (format "type_mismatch_v1" file l c).

(** The same handler, whatever the operand values. *)
Definition same_handler (ep ep' : entry_point) : bool :=
  match ep, ep' with
  | type_mismatch _, type_mismatch _
  | type_mismatch_v1 _, type_mismatch_v1 _
  | add_overflow _ _, add_overflow _ _
  | sub_overflow _ _, sub_overflow _ _
  | mul_overflow _ _, mul_overflow _ _
  | negate_overflow _, negate_overflow _
  | divrem_overflow _ _, divrem_overflow _ _
  | pointer_overflow _ _, pointer_overflow _ _
  | shift_out_of_bounds _ _, shift_out_of_bounds _ _
  | out_of_bounds _, out_of_bounds _
  | builtin_unreachable, builtin_unreachable
  | missing_return, missing_return
  | vla_bound_not_positive _, vla_bound_not_positive _
  | load_invalid_value _, load_invalid_value _
  | nonnull_arg _, nonnull_arg _
  | invalid_builtin, invalid_builtin => true
  | _, _ => false
  end.

(** ** Concurrent callers *)

(** Where a caller stands inside its handler.  Each step from one point to
    the next makes one access to the shared memory at most:
    [Entry], the handler evaluates its arguments ([should_panic] is read);
    [Load], [was_already_reported] reads [loc->column] into its local;
    [Cas], it tries the compare-and-swap with the value it read;
    [Emit], [ubsan_handle_error] writes the line;
    [Call_panic], [ubsan_panic] calls the primitive;
    [Idle], the loop behind the primitive; [Gone], the primitive kept
    control; [Back], the handler has returned; [Faulted], a bad pointer. *)
Inductive pc :=
| Entry
| Load (panic_flag : bool)
| Cas (panic_flag : bool) (column : Z)
| Emit (panic_flag : bool)
| Call_panic
| Idle
| Gone
| Back
| Faulted.

(** A caller: the handler it is in, where it stands, and what
    [was_already_reported] has answered it, once it has. *)
Record thread := {
  handler : entry_point;
  at_pc : pc;
  observed : option bool
}.

(** Where control goes when [ubsan_handle_error] returns. *)
Definition leave (ep : entry_point) : pc :=
  if noreturn ep then Call_panic else Back.

Definition move (t : thread) (next : pc) (answer : option bool) : thread :=
  {| handler := handler t; at_pc := next; observed := answer |}.

(** One step of one caller on the shared state. *)
Definition step (e : env) (data : Z) (t : thread) (s : state)
  : thread * state :=
  match at_pc t with
  | Entry =>
      let flag := if noreturn (handler t) then false else should_panic s in
      (move t (Load flag) None, s)
  | Load flag =>
      match load_loc data e s with
      | Returned l s' =>
          if negb (Z.land (column l) UBSAN_LOC_REPORTED =? 0)
          then (move t (leave (handler t)) (Some true), s')
          else (move t (Cas flag (column l)) None, s')
      | _ => (move t Faulted (observed t), s)
      end
  | Cas flag column =>
      match atomic_cas_u32 data column (Z.lor column UBSAN_LOC_REPORTED) e s
      with
      | Returned r s' =>
          if negb (fst r)
          then (move t (leave (handler t)) (Some true), s')
          else (move t (Emit flag) (Some false), s')
      | _ => (move t Faulted (observed t), s)
      end
  | Emit flag =>
      match load_loc data e s with
      | Returned l s' =>
          (move t (if flag then Call_panic else leave (handler t))
             (observed t),
           log (Emsg (format (event_name (func_of (handler t)))
                        (file_name l) (line l)
                        (Z.land (column l) (not32 UBSAN_LOC_REPORTED)))) s')
      | _ => (move t Faulted (observed t), s)
      end
  | Call_panic =>
      match platform_panic e s with
      | Returned _ s' => (move t Idle (observed t), s')
      | Halted s' => (move t Gone (observed t), s')
      | _ => (move t Faulted (observed t), s)
      end
  | Idle | Gone | Back | Faulted => (t, s)
  end.

Record system := {
  shared : state;
  threads : list thread
}.

(** All callers at the entry of their handlers. *)
Definition start (s : state) (eps : list entry_point) : system :=
  {| shared := s;
     threads := map (fun ep => {| handler := ep; at_pc := Entry;
                                  observed := None |}) eps |}.

(** The scheduler lets caller [i] make its next step. *)
Definition turn (e : env) (data : Z) (sys : system) (i : nat) : system :=
  match threads sys !! i with
  | Some t =>
      let r := step e data t (shared sys) in
      {| shared := snd r; threads := <[i := fst r]> (threads sys) |}
  | None => sys
  end.

(** An interleaving is the list of the callers' turns. *)
Definition exec (e : env) (data : Z) (sched : list nat) (sys : system)
  : system :=
  fold_left (turn e data) sched sys.

(** A caller that will touch neither the memory nor the output again. *)
Definition finished (t : thread) : bool :=
  match at_pc t with
  | Idle | Gone | Back | Faulted => true
  | _ => false
  end.

(** What a caller that runs alone has done when it is finished. *)
Definition outcome_of (sys : system) : option (outcome unit) :=
  match threads sys with
  | [t] =>
      match at_pc t with
      | Back => Some (Returned tt (shared sys))
      | Gone => Some (Halted (shared sys))
      | Idle => Some (Spinning (shared sys))
      | Faulted => Some Fault
      | _ => None
      end
  | _ => None
  end.

(** *** The invariant of a race for one location *)

(** A caller that has no answer from [was_already_reported] yet; if it is
    about to try the compare-and-swap, it holds the original column. *)
Definition early (c0 : Z) (t : thread) : Prop :=
  observed t = None /\
  match at_pc t with
  | Entry | Load _ => True
  | Cas _ c => c = c0
  | _ => False
  end.

(** A caller that was told "already reported" and left the reporter
    without a word: back in its caller, unless its handler never returns. *)
Definition silent (t : thread) : Prop :=
  observed t = Some true /\
  match at_pc t with
  | Back => noreturn (handler t) = false
  | Call_panic | Idle | Gone => noreturn (handler t) = true
  | _ => False
  end.

(** The caller that was told "not yet reported", before its line is out. *)
Definition announcing (t : thread) : Prop :=
  observed t = Some false /\ exists flag, at_pc t = Emit flag.

(** The same caller once its line is out. *)
Definition announced_by (t : thread) : Prop :=
  observed t = Some false /\
  match at_pc t with
  | Call_panic | Idle | Gone | Back => True
  | _ => False
  end.

(** The line a caller writes for the location of [d]. *)
Definition line_of (d : descriptor) (t : thread) : string :=
  format (event_name (func_of (handler t))) (file_name (loc_of d))
    (line (loc_of d))
    (semantic_column (Z.lor (column (loc_of d)) UBSAN_LOC_REPORTED)).

Definition lines (sys : system) : list string := emitted (trace (shared sys)).

(** Either nobody has set the bit, and then nobody has an answer; or
    caller [w] has set it, is the only one with the answer "not yet
    reported", and is the only one to write a line. *)
Inductive race_inv (data : Z) (d : descriptor) (s0 : state) (n : nat)
  (sys : system) : Prop :=
| Untouched :
    length (threads sys) = n ->
    heap (shared sys) = heap s0 ->
    lines sys = emitted (trace s0) ->
    (forall i t, threads sys !! i = Some t -> early (column (loc_of d)) t) ->
    race_inv data d s0 n sys
| Claimed (w : nat) (tw : thread) :
    length (threads sys) = n ->
    heap (shared sys) = heap (mark data d s0) ->
    threads sys !! w = Some tw ->
    (announcing tw /\ lines sys = emitted (trace s0) \/
     announced_by tw /\ lines sys = emitted (trace s0) ++ [line_of d tw]) ->
    (forall i t, i <> w -> threads sys !! i = Some t ->
                 early (column (loc_of d)) t \/ silent t) ->
    race_inv data d s0 n sys.

(** ** A concrete call site *)

Definition a_c_10_5 (c : Z) : source_location :=
  {| file_name := "a.c"; line := 10; column := c |}.

(** One overflow descriptor at address 100 and one unreachable descriptor
    at address 200. *)
Definition site (c : Z) (policy : bool) : state :=
  {| heap := {[ 100 := overflow_data (a_c_10_5 c) 7;
                200 := unreachable_data (a_c_10_5 c) ]};
     should_panic := policy;
     trace := [] |}.

Definition ta_env : env :=
  {| context := USER_TA; primitive_returns := true; loop_fuel := 3 |}.

Definition kernel_env : env :=
  {| context := KERNEL; primitive_returns := false; loop_fuel := 0 |}.

Definition mismatch_site : state :=
  {| heap := {[ 100 := type_mismatch_data (a_c_10_5 5) 0 4 0 ]};
     should_panic := false;
     trace := [] |}.

(** ** Vocabulary of the further properties *)

(** The locations of the memory that are marked as reported. *)
Definition reported_count (h : gmap Z descriptor) : nat :=
  size (filter (fun kv => reported (column (loc_of kv.2)) = true) h).

(** The steps a caller has before it at most. *)
Definition steps_left (t : thread) : nat :=
  match at_pc t with
  | Entry => 5
  | Load _ => 4
  | Cas _ _ => 3
  | Emit _ => 2
  | Call_panic => 1
  | Idle | Gone | Back | Faulted => 0
  end.

(** How many turns a schedule gives to caller [i]. *)
Definition turns_of (i : nat) (sched : list nat) : nat :=
  length (filter (fun j => j = i) sched).

(** Between two states nothing happened to the memory but marks: the same
    addresses hold descriptors, and each descriptor is as it was or has
    gained the reserved bit. *)
Definition only_marks (s s' : state) : Prop :=
  should_panic s' = should_panic s /\
  forall p,
    match heap s !! p with
    | None => heap s' !! p = None
    | Some d =>
        heap s' !! p = Some d \/
        reported (column (loc_of d)) = false /\
        heap s' !! p =
        Some (set_column (Z.lor (column (loc_of d)) UBSAN_LOC_REPORTED) d)
    end.

(** As many lines were written as locations were marked. *)
Definition line_per_mark (s s' : state) : Prop :=
  (length (emitted (trace s')) + reported_count (heap s) =
   length (emitted (trace s)) + reported_count (heap s'))%nat.

(** ** The memory layout of the core image (the linker script) *)

(** The linker computes on 64-bit words. *)
Definition ld_word (x : Z) : Z := x mod 2 ^ 64.

(** A word read as a signed number. *)
Definition ld_signed (x : Z) : Z :=
  if ld_word x <? 2 ^ 63 then ld_word x else ld_word x - 2 ^ 64.

(** [/] and [%] as GNU ld evaluates them: on the signed readings of the
    operands, towards zero.  (ld.lld takes the operands as unsigned; the
    two agree on operands below 2^63.) *)
Definition ld_div (x y : Z) : Z := ld_word (Z.quot (ld_signed x) (ld_signed y)).

Definition ld_rem (x y : Z) : Z := ld_word (Z.rem (ld_signed x) (ld_signed y)).

(** [LD_ROUNDDOWN(x, y)], the macro the script defines for itself, for
    addresses [0 <= x < 2^63] and [0 < y < 2^63], where the linker's [%] is
    [mod] whichever way it reads its operands, and for any [x] that is a
    multiple of [y]. *)
Definition LD_ROUNDDOWN (x y : Z) : Z := x - x mod y.

(** The linker's [ALIGN(align)] at location counter [dot]:
    [(. + align - 1) & ~(align - 1)]. *)
Definition ALIGN (dot align : Z) : Z :=
  Z.land (dot + align - 1) (Z.lnot (align - 1)).

(** What the script takes from the build configuration. *)
Record ld_config := {
  TEE_LOAD_ADDR : Z;
  TEE_RAM_START : Z;
  TEE_RAM_VA_SIZE : Z;
  SMALL_PAGE_SIZE : Z;
  CFG_CORE_RODATA_NOEXEC : bool;
  CFG_CORE_RWDATA_NOEXEC : bool
}.

(** Where the location counter stands when the linker has laid out the
    output sections: behind [.text] (the script's [__text_end]), behind
    [.dtors], behind [.nozi] (its [__nozi_stack_end]). *)
Record ld_sections := {
  text_end : Z;
  dtors_end : Z;
  nozi_end : Z
}.

Definition __text_start (c : ld_config) : Z := TEE_LOAD_ADDR c.

Definition __flatmap_rx_start (c : ld_config) : Z :=
  LD_ROUNDDOWN (__text_start c) (SMALL_PAGE_SIZE c).

Definition __flatmap_ro_start (c : ld_config) (o : ld_sections) : Z :=
  if CFG_CORE_RODATA_NOEXEC c
  then ALIGN (text_end o) (SMALL_PAGE_SIZE c)
  else text_end o.

Definition __flatmap_rx_size (c : ld_config) (o : ld_sections) : Z :=
  __flatmap_ro_start c o - __flatmap_rx_start c.

Definition __flatmap_rw_start (c : ld_config) (o : ld_sections) : Z :=
  if CFG_CORE_RWDATA_NOEXEC c
  then ALIGN (dtors_end o) (SMALL_PAGE_SIZE c)
  else dtors_end o.

Definition __flatmap_ro_size (c : ld_config) (o : ld_sections) : Z :=
  __flatmap_rw_start c o - __flatmap_ro_start c o.

Definition __flatmap_free_start (c : ld_config) (o : ld_sections) : Z :=
  ALIGN (nozi_end o) (SMALL_PAGE_SIZE c).

Definition __flatmap_rw_size (c : ld_config) (o : ld_sections) : Z :=
  __flatmap_free_start c o - __flatmap_rw_start c o.

Definition _end_of_ram (c : ld_config) : Z :=
  TEE_RAM_START c + TEE_RAM_VA_SIZE c.

Definition __flatmap_free_size (c : ld_config) (o : ld_sections) : Z :=
  _end_of_ram c - __flatmap_free_start c o.

(** The symbols the script defines behind [SECTIONS]. *)
Definition __vcore_unpg_rx_start (c : ld_config) : Z := __flatmap_rx_start c.

Definition __vcore_unpg_ro_start (c : ld_config) (o : ld_sections) : Z :=
  __flatmap_ro_start c o.

Definition __vcore_unpg_rx_size (c : ld_config) (o : ld_sections) : Z :=
  if CFG_CORE_RODATA_NOEXEC c
  then __flatmap_rx_size c o
  else __flatmap_rx_size c o + __flatmap_ro_size c o.

Definition __vcore_unpg_ro_size (c : ld_config) (o : ld_sections) : Z :=
  if CFG_CORE_RODATA_NOEXEC c then __flatmap_ro_size c o else 0.

Definition __vcore_unpg_rx_end (c : ld_config) (o : ld_sections) : Z :=
  __vcore_unpg_rx_start c + __vcore_unpg_rx_size c o.

Definition __vcore_unpg_ro_end (c : ld_config) (o : ld_sections) : Z :=
  __vcore_unpg_ro_start c o + __vcore_unpg_ro_size c o.

Definition __vcore_unpg_rw_start (c : ld_config) (o : ld_sections) : Z :=
  __flatmap_rw_start c o.

Definition __vcore_unpg_rw_size (c : ld_config) (o : ld_sections) : Z :=
  __flatmap_rw_size c o.

Definition __vcore_unpg_rw_end (c : ld_config) (o : ld_sections) : Z :=
  __vcore_unpg_rw_start c o + __vcore_unpg_rw_size c o.

Definition __vcore_free_start (c : ld_config) (o : ld_sections) : Z :=
  __flatmap_free_start c o.

Definition __vcore_free_size (c : ld_config) (o : ld_sections) : Z :=
  __flatmap_free_size c o.

Definition __vcore_free_end (c : ld_config) (o : ld_sections) : Z :=
  __flatmap_free_start c o + __flatmap_free_size c o.

(** The part under [CFG_CORE_SANITIZE_KADDRESS]. *)
Definition __asan_shadow_start (c : ld_config) : Z :=
  ALIGN (TEE_RAM_START c + ld_div (TEE_RAM_VA_SIZE c * 8) 9 - 8) 8.

Definition __asan_shadow_end (c : ld_config) : Z :=
  __asan_shadow_start c + ld_div (TEE_RAM_VA_SIZE c) 9.

(** Assigned inside the output section [.asan_shadow]: there the difference
    of the two symbols is a number, and GNU ld takes a number assigned to a
    symbol inside an output section as an offset in that section. *)
Definition __asan_shadow_size (c : ld_config) : Z :=
  __asan_shadow_start c + (__asan_shadow_end c - __asan_shadow_start c).

Definition __asan_map_start (c : ld_config) : Z :=
  ld_div (__asan_shadow_start c) (SMALL_PAGE_SIZE c) * SMALL_PAGE_SIZE c.

Definition __asan_map_end (c : ld_config) : Z :=
  ld_div (__asan_shadow_end c - 1) (SMALL_PAGE_SIZE c) * SMALL_PAGE_SIZE c
  + SMALL_PAGE_SIZE c.

Definition __asan_map_size (c : ld_config) : Z :=
  __asan_map_end c - __asan_map_start c.

(** A build to try the layout on. *)
Definition a_build : ld_config :=
  {| TEE_LOAD_ADDR := 0xde000000;
     TEE_RAM_START := 0xde000000;
     TEE_RAM_VA_SIZE := 0x200000;
     SMALL_PAGE_SIZE := 0x1000;
     CFG_CORE_RODATA_NOEXEC := true;
     CFG_CORE_RWDATA_NOEXEC := true |}.

Definition a_link : ld_sections :=
  {| text_end := 0xde041238;
     dtors_end := 0xde05a010;
     nozi_end := 0xde09c120 |}.

(** ** The split of the SYSRAM (platform configuration of the STM32MP1) *)

(** The SoC family the header is configured for. *)
Inductive stm32mp1 := CFG_STM32MP13 | CFG_STM32MP15.

Definition SYSRAM_BASE (soc : stm32mp1) : Z :=
  match soc with
  | CFG_STM32MP13 => 0x2ffe0000
  | CFG_STM32MP15 => 0x2ffc0000
  end.

Definition SYSRAM_SIZE (soc : stm32mp1) : Z :=
  match soc with
  | CFG_STM32MP13 => 0x20000
  | CFG_STM32MP15 => 0x40000
  end.

(** The sum as the preprocessor forms it for [#if]: in [uintmax_t] it
    wraps at 2^64; in [intmax_t] it must stay below 2^63. *)
Definition STM32MP1_SCMI_SHM_END
  (CFG_STM32MP1_SCMI_SHM_BASE CFG_STM32MP1_SCMI_SHM_SIZE : Z) : Z :=
  (CFG_STM32MP1_SCMI_SHM_BASE + CFG_STM32MP1_SCMI_SHM_SIZE) mod 2 ^ 64.

Definition SYSRAM_SEC_SIZE (soc : stm32mp1)
  (CFG_STM32MP1_SCMI_SHM_BASE CFG_STM32MP1_SCMI_SHM_SIZE : Z) : Z :=
  if negb (CFG_STM32MP1_SCMI_SHM_BASE =? 0)
     && (CFG_STM32MP1_SCMI_SHM_BASE >=? SYSRAM_BASE soc)
     && (STM32MP1_SCMI_SHM_END CFG_STM32MP1_SCMI_SHM_BASE
           CFG_STM32MP1_SCMI_SHM_SIZE
         <=? SYSRAM_BASE soc + SYSRAM_SIZE soc)
  then CFG_STM32MP1_SCMI_SHM_BASE - SYSRAM_BASE soc
  else SYSRAM_SIZE soc.

Definition SYSRAM_NS_SIZE (soc : stm32mp1)
  (CFG_STM32MP1_SCMI_SHM_BASE CFG_STM32MP1_SCMI_SHM_SIZE : Z) : Z :=
  SYSRAM_SIZE soc
  - SYSRAM_SEC_SIZE soc CFG_STM32MP1_SCMI_SHM_BASE CFG_STM32MP1_SCMI_SHM_SIZE.

(** ** Where a caller ends *)

(** The caller is in [ubsan_panic] for good. *)
Definition halted (t : thread) : bool :=
  match at_pc t with
  | Idle | Gone => true
  | _ => false
  end.

Fixpoint halted_count (ts : list thread) : nat :=
  match ts with
  | [] => 0
  | t :: ts' => (if halted t then 1 else 0) + halted_count ts'
  end.

(** The flag a handler passes to [ubsan_handle_error] when [should_panic]
    is as in [s0]. *)
Definition flag_of (s0 : state) (ep : entry_point) : bool :=
  if noreturn ep then false else should_panic s0.

(** What a caller carries along: the flag it was given at its entry; that
    the primitive has come back when it idles and has not when it is gone;
    and, for the caller that writes the line, on which side of
    [if (panic_flag)] and of the handler's own [ubsan_panic()] it ends. *)
Definition on_track (e : env) (s0 : state) (t : thread) : Prop :=
  match at_pc t with
  | Entry | Faulted => True
  | Load f | Cas f _ | Emit f => f = flag_of s0 (handler t)
  | Call_panic =>
      observed t = Some false ->
      noreturn (handler t) || should_panic s0 = true
  | Idle =>
      primitive_returns e = true /\
      (observed t = Some false ->
       noreturn (handler t) || should_panic s0 = true)
  | Gone =>
      primitive_returns e = false /\
      (observed t = Some false ->
       noreturn (handler t) || should_panic s0 = true)
  | Back =>
      observed t = Some false ->
      noreturn (handler t) || should_panic s0 = false
  end.

(** * Properties *)

(** ** Facts about the reserved bit *)

Lemma UBSAN_LOC_REPORTED_eq : UBSAN_LOC_REPORTED = 2 ^ 31.
Proof. reflexivity. Qed.

Lemma not32_UBSAN_LOC_REPORTED : not32 UBSAN_LOC_REPORTED = Z.ones 31.
Proof. reflexivity. Qed.

Lemma land_reported_testbit (c : Z) (n : Z) :
  0 <= n ->
  Z.testbit (Z.land c UBSAN_LOC_REPORTED) n = Z.testbit c 31 && (n =? 31).
Proof.
  intros Hn. rewrite UBSAN_LOC_REPORTED_eq, Z.land_spec.
  rewrite Z.pow2_bits_eqb by lia.
  destruct (Z.eqb_spec 31 n) as [<- | Hne].
  - rewrite Z.eqb_refl. reflexivity.
  - destruct (Z.eqb_spec n 31); [lia |]. now rewrite !andb_false_r.
Qed.

Lemma test_reported (c : Z) :
  negb (Z.land c UBSAN_LOC_REPORTED =? 0) = reported c.
Proof.
  unfold reported. destruct (Z.testbit c 31) eqn:Hb.
  - destruct (Z.eqb_spec (Z.land c UBSAN_LOC_REPORTED) 0) as [H0 | ]; [| easy].
    assert (Hbit : Z.testbit (Z.land c UBSAN_LOC_REPORTED) 31 = true).
    { rewrite land_reported_testbit, Hb by lia. reflexivity. }
    rewrite H0, Z.bits_0 in Hbit. discriminate.
  - replace (Z.land c UBSAN_LOC_REPORTED) with 0; [reflexivity |].
    symmetry. apply Z.bits_inj'. intros n Hn.
    rewrite land_reported_testbit, Hb, Z.bits_0 by lia. reflexivity.
Qed.

Lemma reported_lor (c : Z) : reported (Z.lor c UBSAN_LOC_REPORTED) = true.
Proof.
  unfold reported. rewrite Z.lor_spec, UBSAN_LOC_REPORTED_eq.
  rewrite Z.pow2_bits_true by lia. apply orb_true_r.
Qed.

Lemma lor_keeps_bits (c n : Z) :
  Z.testbit c n = true -> Z.testbit (Z.lor c UBSAN_LOC_REPORTED) n = true.
Proof. intros H. rewrite Z.lor_spec, H. reflexivity. Qed.

Lemma fresh_range (c : Z) : u32 c -> reported c = false -> 0 <= c < 2 ^ 31.
Proof.
  unfold u32, reported. intros [Hlo Hhi] Hb. split; [exact Hlo |].
  destruct (Z_lt_le_dec c (2 ^ 31)) as [Hlt | Hge]; [exact Hlt | exfalso].
  assert (Hbit : Z.testbit c 31 = true).
  { rewrite Z.testbit_true by lia.
    replace (c / 2 ^ 31) with 1; [reflexivity |].
    apply Z.div_unique with (r := c - 2 ^ 31); lia. }
  congruence.
Qed.

Lemma semantic_column_low (c : Z) : 0 <= c < 2 ^ 31 -> semantic_column c = c.
Proof.
  intros Hc. unfold semantic_column.
  rewrite not32_UBSAN_LOC_REPORTED, Z.land_ones by lia.
  apply Z.mod_small. exact Hc.
Qed.

Lemma semantic_column_lor (c : Z) :
  0 <= c < 2 ^ 31 -> semantic_column (Z.lor c UBSAN_LOC_REPORTED) = c.
Proof.
  intros Hc. unfold semantic_column.
  rewrite not32_UBSAN_LOC_REPORTED, Z.land_lor_distr_l.
  change (Z.land UBSAN_LOC_REPORTED (Z.ones 31)) with 0.
  rewrite Z.lor_0_r, Z.land_ones by lia.
  apply Z.mod_small. exact Hc.
Qed.

(** ** What each function of the runtime computes *)

Lemma loc_of_set_column (c : Z) (d : descriptor) :
  loc_of (set_column c d) =
  {| file_name := file_name (loc_of d); line := line (loc_of d); column := c |}.
Proof. destruct d; reflexivity. Qed.

Lemma set_column_same (d : descriptor) : set_column (column (loc_of d)) d = d.
Proof. destruct d as [[] | [] | [] | [] | [] | [] | [] | [] | []]; reflexivity. Qed.

Lemma while_1_spins (n : nat) (e : env) (s : state) :
  while_ (ret true) (ret tt) n e s = Spinning s.
Proof. induction n as [| n IH]; [reflexivity | exact IH]. Qed.

Lemma ubsan_panic_spec (e : env) (s : state) :
  ubsan_panic e s = lost e (log (Panic (which_panic e)) s).
Proof.
  unfold ubsan_panic, bind, platform_panic, lost, which_panic.
  destruct (primitive_returns e); [apply while_1_spins | reflexivity].
Qed.

Lemma was_already_reported_null (loc : Z) (e : env) (s : state) :
  heap s !! loc = None -> was_already_reported loc e s = Fault.
Proof.
  intros H. unfold was_already_reported, bind, load_loc. now rewrite H.
Qed.

Lemma was_already_reported_set (loc : Z) (d : descriptor) (e : env) (s : state) :
  heap s !! loc = Some d ->
  reported (column (loc_of d)) = true ->
  was_already_reported loc e s = Returned true s.
Proof.
  intros H Hr. unfold was_already_reported, bind, load_loc.
  rewrite H, test_reported, Hr. reflexivity.
Qed.

Lemma was_already_reported_fresh (loc : Z) (d : descriptor) (e : env) (s : state) :
  heap s !! loc = Some d ->
  reported (column (loc_of d)) = false ->
  was_already_reported loc e s = Returned false (mark loc d s).
Proof.
  intros H Hr. unfold was_already_reported, bind, load_loc, atomic_cas_u32.
  rewrite H, test_reported, Hr. cbn [negb]. rewrite H, Z.eqb_refl.
  reflexivity.
Qed.

Lemma event_name_strips (short : string) :
  event_name ("__ubsan_handle_" +:+ short) = short.
Proof. reflexivity. Qed.

Lemma event_name_other (func : string) :
  memcmp func func_prefix 14 <> 0 -> event_name func = func.
Proof.
  intros H. unfold event_name.
  change (sizeof_func_prefix - 1)%nat with 14%nat.
  destruct (Z.eqb_spec (memcmp func func_prefix 14) 0); [contradiction | reflexivity].
Qed.

Lemma ubsan_handle_error_null func loc flag (e : env) (s : state) :
  heap s !! loc = None -> ubsan_handle_error func loc flag e s = Fault.
Proof.
  intros H. unfold ubsan_handle_error, bind.
  now rewrite was_already_reported_null.
Qed.

Lemma ubsan_handle_error_set func loc flag d (e : env) (s : state) :
  heap s !! loc = Some d ->
  reported (column (loc_of d)) = true ->
  ubsan_handle_error func loc flag e s = Returned tt s.
Proof.
  intros H Hr. unfold ubsan_handle_error, bind.
  now rewrite (was_already_reported_set loc d).
Qed.

Lemma ubsan_handle_error_fresh func loc flag d (e : env) (s : state) :
  heap s !! loc = Some d ->
  reported (column (loc_of d)) = false ->
  ubsan_handle_error func loc flag e s =
  if flag
  then lost e (log (Panic (which_panic e)) (announced func loc d s))
  else Returned tt (announced func loc d s).
Proof.
  intros H Hr. unfold ubsan_handle_error, bind.
  rewrite (was_already_reported_fresh loc d) by assumption.
  unfold load_loc, mark at 1, with_heap at 1. cbn [heap].
  rewrite lookup_insert_eq, loc_of_set_column. cbn [file_name line column].
  unfold EMSG_RAW. fold (event_name func). fold (announced func loc d s).
  destruct flag; [apply ubsan_panic_spec | reflexivity].
Qed.

(** ** The entry points through the reporter *)

(** Every handler hands its own name and the location of its descriptor to
    [ubsan_handle_error]; the two [__noreturn] ones pass [false] and go on
    to [ubsan_panic], the others pass [should_panic]. *)
Lemma call_funnel (ep : entry_point) (data : Z) (e : env) (s : state) :
  call ep data e s =
  if noreturn ep
  then (ubsan_handle_error (func_of ep) data false >>> ubsan_panic) e s
  else ubsan_handle_error (func_of ep) data (should_panic s) e s.
Proof. destruct ep; reflexivity. Qed.

Lemma call_null ep data (e : env) (s : state) :
  heap s !! data = None -> call ep data e s = Fault.
Proof.
  intros H. rewrite call_funnel. unfold bind.
  rewrite !ubsan_handle_error_null by assumption. now destruct (noreturn ep).
Qed.

Lemma call_set ep data d (e : env) (s : state) :
  heap s !! data = Some d ->
  reported (column (loc_of d)) = true ->
  call ep data e s =
  if noreturn ep then lost e (log (Panic (which_panic e)) s)
  else Returned tt s.
Proof.
  intros H Hr. rewrite call_funnel. unfold bind.
  rewrite !(ubsan_handle_error_set _ _ _ d) by assumption.
  destruct (noreturn ep); [apply ubsan_panic_spec | reflexivity].
Qed.

Lemma call_fresh ep data d (e : env) (s : state) :
  heap s !! data = Some d ->
  reported (column (loc_of d)) = false ->
  call ep data e s =
  if noreturn ep || should_panic s
  then lost e (log (Panic (which_panic e)) (announced (func_of ep) data d s))
  else Returned tt (announced (func_of ep) data d s).
Proof.
  intros H Hr. rewrite call_funnel. unfold bind.
  rewrite !(ubsan_handle_error_fresh _ _ _ d) by assumption.
  destruct (noreturn ep); cbn [orb]; [apply ubsan_panic_spec | reflexivity].
Qed.

Lemma final_state_lost {A} (e : env) (s : state) :
  final_state (@lost A e s) = Some s.
Proof. unfold lost. now destruct (primitive_returns e). Qed.

Lemma returns_lost {A} (e : env) (s : state) : returns (@lost A e s) = false.
Proof. unfold lost. now destruct (primitive_returns e). Qed.

Lemma lost_not_returned {A} (e : env) (s : state) (a : A) (s' : state) :
  lost e s <> Returned a s'.
Proof. unfold lost. now destruct (primitive_returns e). Qed.

Lemma heap_announced func loc d s :
  heap (announced func loc d s) =
  <[loc := set_column (Z.lor (column (loc_of d)) UBSAN_LOC_REPORTED) d]> (heap s).
Proof. reflexivity. Qed.

Lemma lookup_announced func loc d s :
  heap (announced func loc d s) !! loc =
  Some (set_column (Z.lor (column (loc_of d)) UBSAN_LOC_REPORTED) d).
Proof. rewrite heap_announced. apply lookup_insert_eq. Qed.

Lemma emitted_app (t1 t2 : list event) :
  emitted (t1 ++ t2) = emitted t1 ++ emitted t2.
Proof.
  induction t1 as [| [text | c] t1 IH]; cbn; [reflexivity | | exact IH].
  now rewrite IH.
Qed.

Lemma panics_app (t1 t2 : list event) :
  panics (t1 ++ t2) = panics t1 ++ panics t2.
Proof.
  induction t1 as [| [text | c] t1 IH]; cbn; [reflexivity | exact IH |].
  now rewrite IH.
Qed.

Lemma run_silent data d (e : env) (s : state) (eps : list entry_point) :
  heap s !! data = Some d ->
  reported (column (loc_of d)) = true ->
  all_return eps ->
  run (calls_on data eps) e s = Returned tt s.
Proof.
  intros H Hr Hall. induction Hall as [| ep eps Hep _ IH]; [reflexivity |].
  cbn [calls_on map run]. unfold bind.
  rewrite (call_set ep data d), Hep by assumption. exact IH.
Qed.

(** ** Idempotence of reporting *)

(** C1.  With [should_panic] off: (1) on a location whose reserved bit is
    set, a call of any handler that can return writes no line, does not
    halt and returns with the whole state, the column word included, as it
    was; (2) whenever a call returns, the bit of its location is set, so (1)
    applies to every later call; (3) hence one or more calls in a row on a
    location not yet reported all return, write exactly one line between
    them (the line of the first call), and leave the column at [c] with the
    reserved bit set, whose semantic part is still [c]. *)
Theorem idempotence_of_reporting
  (e : env) (s : state) (data : Z) (d : descriptor) :
  heap s !! data = Some d ->
  should_panic s = false ->
  (reported (column (loc_of d)) = true ->
   forall ep, noreturn ep = false -> call ep data e s = Returned tt s) /\
  (forall ep s1,
     call ep data e s = Returned tt s1 ->
     exists d1, heap s1 !! data = Some d1 /\
                reported (column (loc_of d1)) = true) /\
  (u32 (column (loc_of d)) ->
   reported (column (loc_of d)) = false ->
   forall ep eps,
     noreturn ep = false -> all_return eps ->
     exists s',
       run (calls_on data (ep :: eps)) e s = Returned tt s' /\
       trace s' =
         trace s ++
         [Emsg (format (event_name (func_of ep)) (file_name (loc_of d))
                  (line (loc_of d)) (column (loc_of d)))] /\
       heap s' =
         <[data := set_column (Z.lor (column (loc_of d)) UBSAN_LOC_REPORTED) d]>
           (heap s) /\
       semantic_column (Z.lor (column (loc_of d)) UBSAN_LOC_REPORTED) =
         column (loc_of d) /\
       should_panic s' = false).
Proof.
  intros Hd Hpol. split; [| split].
  - intros Hr ep Hep. rewrite (call_set ep data d), Hep by assumption.
    reflexivity.
  - intros ep s1 Hcall. destruct (reported (column (loc_of d))) eqn:Hr.
    + rewrite (call_set ep data d) in Hcall by assumption.
      destruct (noreturn ep).
      * now apply lost_not_returned in Hcall.
      * injection Hcall as <-. now exists d.
    + rewrite (call_fresh ep data d), Hpol in Hcall by assumption.
      destruct (noreturn ep); cbn [orb] in Hcall.
      * now apply lost_not_returned in Hcall.
      * injection Hcall as <-. eexists. split; [apply lookup_announced |].
        rewrite loc_of_set_column. apply reported_lor.
  - intros Hu Hr ep eps Hep Hall.
    pose proof (fresh_range _ Hu Hr) as Hc.
    exists (announced (func_of ep) data d s).
    cbn [calls_on map run]. unfold bind.
    rewrite (call_fresh ep data d), Hep, Hpol by assumption. cbn [orb].
    repeat split.
    + eapply run_silent; [apply lookup_announced | | exact Hall].
      rewrite loc_of_set_column. apply reported_lor.
    + unfold announced, log. cbn [trace mark with_heap].
      now rewrite semantic_column_lor by exact Hc.
    + now apply semantic_column_lor.
    + exact Hpol.
Qed.

Lemma idempotence_of_reporting_witness :
  call (add_overflow 1 2) 100 ta_env (site (5 + 2 ^ 31) false) =
    Returned tt (site (5 + 2 ^ 31) false) /\
  exists s',
    run (calls_on 100 [add_overflow 1 2; add_overflow 3 4; mul_overflow 5 6])
      ta_env (site 5 false) = Returned tt s' /\
    trace s' = [Emsg "Undefined behavior add_overflow at a.c:10 col 5"].
Proof.
  split.
  - apply (idempotence_of_reporting ta_env (site (5 + 2 ^ 31) false) 100
             (overflow_data (a_c_10_5 (5 + 2 ^ 31)) 7));
      reflexivity.
  - destruct (idempotence_of_reporting ta_env (site 5 false) 100
                (overflow_data (a_c_10_5 5) 7) eq_refl eq_refl)
      as (_ & _ & H).
    destruct (H ltac:(unfold u32; cbn; lia) eq_refl (add_overflow 1 2)
                [add_overflow 3 4; mul_overflow 5 6] eq_refl
                ltac:(repeat constructor))
      as (s' & Hrun & Htrace & _).
    exists s'. split; [exact Hrun | exact Htrace].
Defined.

(** ** Halting and the policy *)

(** C3.  A handler that can return, called on a location whose reserved bit
    is clear, writes its one line and then calls the panic primitive exactly
    when [should_panic] holds at the call; with the flag off it returns to
    its caller, with the flag on it does not. *)
Theorem halt_iff_policy
  (ep : entry_point) (e : env) (s : state) (data : Z) (d : descriptor) :
  noreturn ep = false ->
  heap s !! data = Some d ->
  reported (column (loc_of d)) = false ->
  exists s' text,
    final_state (call ep data e s) = Some s' /\
    trace s' =
      trace s ++
      Emsg text :: (if should_panic s then [Panic (which_panic e)] else []) /\
    (In (Panic (which_panic e)) (skipn (length (trace s)) (trace s')) <->
     should_panic s = true) /\
    (should_panic s = true -> returns (call ep data e s) = false) /\
    (should_panic s = false -> call ep data e s = Returned tt s').
Proof.
  intros Hep Hd Hr. rewrite (call_fresh ep data d), Hep by assumption.
  cbn [orb]. unfold announced.
  set (text := format _ _ _ _). set (s1 := log (Emsg text) (mark data d s)).
  assert (Ht1 : trace s1 = trace s ++ [Emsg text]) by reflexivity.
  destruct (should_panic s).
  - exists (log (Panic (which_panic e)) s1), text.
    rewrite final_state_lost, returns_lost.
    assert (Ht : trace (log (Panic (which_panic e)) s1) =
                 trace s ++ [Emsg text; Panic (which_panic e)]).
    { cbn [log trace]. rewrite Ht1, <- app_assoc. reflexivity. }
    repeat split; try easy.
    rewrite Ht, drop_app_length. cbn. tauto.
  - exists s1, text. cbn [final_state returns].
    repeat split; try easy.
    + rewrite Ht1, drop_app_length. cbn. intros [H | []]. discriminate H.
Qed.

Lemma halt_iff_policy_witness :
  (exists s' text,
      final_state (call (shift_out_of_bounds 0 0) 100 kernel_env
                     (site 5 true)) = Some s' /\
      trace s' = [Emsg text; Panic panic] /\
      returns (call (shift_out_of_bounds 0 0) 100 kernel_env (site 5 true)) =
      false) /\
  (exists s' text,
      trace s' = [Emsg text] /\
      call (shift_out_of_bounds 0 0) 100 kernel_env (site 5 false) =
      Returned tt s').
Proof.
  split.
  - destruct (halt_iff_policy (shift_out_of_bounds 0 0) kernel_env
                (site 5 true) 100 (overflow_data (a_c_10_5 5) 7)
                eq_refl eq_refl eq_refl)
      as (s' & text & Hfin & Ht & _ & Hhalt & _).
    exists s', text.
    split; [exact Hfin | split; [exact Ht | exact (Hhalt eq_refl)]].
  - destruct (halt_iff_policy (shift_out_of_bounds 0 0) kernel_env
                (site 5 false) 100 (overflow_data (a_c_10_5 5) 7)
                eq_refl eq_refl eq_refl)
      as (s' & text & _ & Ht & _ & _ & Hret).
    exists s', text. split; [exact Ht | exact (Hret eq_refl)].
Defined.

(** ** Locations that arrive with the top bit set *)

(** C10.  When the column of a location has bit 31 set from the start, a
    handler that can return finds it "already reported" on the very first
    call: whatever [should_panic] says, the call returns with the state
    untouched (no line, no call of the panic primitive), and so does any
    run of such calls; even with the [__noreturn] handlers among them no
    line is ever written for the location. *)
Theorem preset_location_never_reported
  (e : env) (s : state) (data : Z) (d : descriptor) :
  heap s !! data = Some d ->
  reported (column (loc_of d)) = true ->
  (forall ep, noreturn ep = false -> call ep data e s = Returned tt s) /\
  (forall eps, all_return eps ->
               run (calls_on data eps) e s = Returned tt s) /\
  (forall eps s',
     final_state (run (calls_on data eps) e s) = Some s' ->
     emitted (trace s') = emitted (trace s)).
Proof.
  intros Hd Hr. split; [| split].
  - intros ep Hep. now rewrite (call_set ep data d), Hep.
  - intros eps Hall. now apply (run_silent data d).
  - intros eps. induction eps as [| ep eps IH]; intros s' Hfin.
    + cbn in Hfin. now injection Hfin as <-.
    + cbn [calls_on map run] in Hfin. unfold bind in Hfin.
      rewrite (call_set ep data d) in Hfin by assumption.
      destruct (noreturn ep).
      * unfold lost in Hfin.
        destruct (primitive_returns e); cbn in Hfin; injection Hfin as <-;
          cbn [log trace]; rewrite emitted_app; cbn; apply app_nil_r.
      * now apply IH.
Qed.

Lemma preset_location_never_reported_witness :
  call (out_of_bounds 0) 100 ta_env (site (2 ^ 31) true) =
  Returned tt (site (2 ^ 31) true).
Proof.
  apply (preset_location_never_reported ta_env (site (2 ^ 31) true) 100
           (overflow_data (a_c_10_5 (2 ^ 31)) 7)); reflexivity.
Defined.

(** ** The first report: what changes *)

(** C5.  Let the column of a location be [c] with the top bit clear.  A call
    of the reporter changes the memory in one place only: the descriptor
    behind the location is the old one with [c | UBSAN_LOC_REPORTED] for
    its column.  Masking the reserved bit off gives [c] back, the file name,
    the line and the rest of the descriptor are as before, and so is
    [should_panic]. *)
Theorem first_report_frame
  (func : string) (flag : bool) (e : env) (s : state) (loc : Z)
  (d : descriptor) :
  heap s !! loc = Some d ->
  0 <= column (loc_of d) < 2 ^ 31 ->
  exists s' d',
    final_state (ubsan_handle_error func loc flag e s) = Some s' /\
    heap s' = <[loc := d']> (heap s) /\
    column (loc_of d') = Z.lor (column (loc_of d)) UBSAN_LOC_REPORTED /\
    column (loc_of d') = column (loc_of d) + 2 ^ 31 /\
    semantic_column (column (loc_of d')) = column (loc_of d) /\
    file_name (loc_of d') = file_name (loc_of d) /\
    line (loc_of d') = line (loc_of d) /\
    set_column (column (loc_of d)) d' = d /\
    should_panic s' = should_panic s.
Proof.
  intros Hd Hc.
  assert (Hr : reported (column (loc_of d)) = false).
  { unfold reported. destruct (Z.eq_dec (column (loc_of d)) 0) as [-> | Hne].
    - reflexivity.
    - apply Z.bits_above_log2; [lia |]. apply Z.log2_lt_pow2; lia. }
  rewrite (ubsan_handle_error_fresh func loc flag d) by assumption.
  exists (if flag then log (Panic (which_panic e)) (announced func loc d s)
          else announced func loc d s).
  exists (set_column (Z.lor (column (loc_of d)) UBSAN_LOC_REPORTED) d).
  rewrite loc_of_set_column. cbn [column file_name line].
  repeat split.
  - destruct flag; [apply final_state_lost | reflexivity].
  - now destruct flag.
  - rewrite UBSAN_LOC_REPORTED_eq.
    assert (Hland : Z.land (column (loc_of d)) (2 ^ 31) = 0).
    { apply Z.bits_inj'. intros n Hn. rewrite Z.land_spec, Z.bits_0.
      rewrite Z.pow2_bits_eqb by lia.
      destruct (Z.eqb_spec 31 n) as [<- | ]; [| apply andb_false_r].
      rewrite andb_true_r. exact Hr. }
    rewrite Z.add_nocarry_lxor by exact Hland.
    symmetry. apply Z.lxor_lor. exact Hland.
  - now apply semantic_column_lor.
  - destruct d as [[] | [] | [] | [] | [] | [] | [] | [] | []]; reflexivity.
  - now destruct flag.
Qed.

Lemma first_report_frame_witness :
  exists s',
    final_state (ubsan_handle_error "__ubsan_handle_add_overflow" 100 false
                   ta_env (site 5 false)) = Some s' /\
    heap s' !! 100 = Some (overflow_data (a_c_10_5 (5 + 2 ^ 31)) 7) /\
    heap s' !! 200 = Some (unreachable_data (a_c_10_5 5)).
Proof.
  destruct (first_report_frame "__ubsan_handle_add_overflow" false ta_env
              (site 5 false) 100 (overflow_data (a_c_10_5 5) 7) eq_refl
              ltac:(cbn; lia))
    as (s' & d' & Hfin & Hheap & _).
  exists s'. split; [exact Hfin |].
  cbn in Hfin. injection Hfin as <-. split; reflexivity.
Defined.

(** ** The reserved bit is never cleared *)

(** A call writes at most one word: the column behind its own descriptor,
    to which it adds the reserved bit. *)
Lemma call_final_heap ep data (e : env) (s s' : state) :
  final_state (call ep data e s) = Some s' ->
  heap s' = heap s \/
  exists d, heap s !! data = Some d /\
            heap s' =
            <[data := set_column (Z.lor (column (loc_of d)) UBSAN_LOC_REPORTED) d]>
              (heap s).
Proof.
  intros Hfin. destruct (heap s !! data) as [d |] eqn:Hd.
  - destruct (reported (column (loc_of d))) eqn:Hr.
    + left. rewrite (call_set ep data d) in Hfin by assumption.
      destruct (noreturn ep).
      * rewrite final_state_lost in Hfin. now injection Hfin as <-.
      * now injection Hfin as <-.
    + right. exists d. split; [reflexivity |].
      rewrite (call_fresh ep data d) in Hfin by assumption.
      destruct (noreturn ep || should_panic s).
      * rewrite final_state_lost in Hfin. now injection Hfin as <-.
      * now injection Hfin as <-.
  - now rewrite call_null in Hfin.
Qed.

Lemma flags_kept_refl (s : state) : flags_kept s s.
Proof. intros p d H. now exists d. Qed.

Lemma flags_kept_trans (s1 s2 s3 : state) :
  flags_kept s1 s2 -> flags_kept s2 s3 -> flags_kept s1 s3.
Proof.
  intros H12 H23 p d Hd.
  destruct (H12 p d Hd) as (d2 & Hd2 & Hr2).
  destruct (H23 p d2 Hd2) as (d3 & Hd3 & Hr3).
  exists d3. split; [exact Hd3 | auto].
Qed.

Lemma call_flags_kept ep data (e : env) (s s' : state) :
  final_state (call ep data e s) = Some s' -> flags_kept s s'.
Proof.
  intros Hfin p d Hd.
  destruct (call_final_heap ep data e s s' Hfin) as [-> | (d0 & Hd0 & ->)].
  - now exists d.
  - destruct (Z.eq_dec data p) as [-> | Hne].
    + rewrite lookup_insert_eq. eexists. split; [reflexivity |].
      intros _. rewrite loc_of_set_column. apply reported_lor.
    + rewrite lookup_insert_ne by exact Hne. now exists d.
Qed.

Lemma run_flags_kept (calls : list (entry_point * Z)) (e : env) :
  forall s s', final_state (run calls e s) = Some s' -> flags_kept s s'.
Proof.
  induction calls as [| [ep data] calls IH]; intros s s' Hfin.
  - cbn in Hfin. injection Hfin as <-. apply flags_kept_refl.
  - cbn [run] in Hfin. unfold bind in Hfin.
    destruct (call ep data e s) as [[] s1 | s1 | s1 |] eqn:Hcall.
    + apply flags_kept_trans with s1; [| now apply IH].
      apply (call_flags_kept ep data e). now rewrite Hcall.
    + apply (call_flags_kept ep data e). now rewrite Hcall.
    + apply (call_flags_kept ep data e). now rewrite Hcall.
    + discriminate Hfin.
Qed.

(** C9.  Bit 31 of a column only ever goes from clear to set.  Take any
    handler, or any sequence of calls of handlers on any descriptors, and
    the state in which it ends (returned, halted or idling): every
    descriptor of the initial memory is still in memory, and if its
    reserved bit was set before, it is set afterwards. *)
Theorem reported_bit_monotone (e : env) (s : state) :
  (forall ep data s',
     final_state (call ep data e s) = Some s' ->
     forall p d,
       heap s !! p = Some d ->
       exists d', heap s' !! p = Some d' /\
                  (reported (column (loc_of d)) = true ->
                   reported (column (loc_of d')) = true)) /\
  (forall calls s',
     final_state (run calls e s) = Some s' ->
     forall p d,
       heap s !! p = Some d ->
       exists d', heap s' !! p = Some d' /\
                  (reported (column (loc_of d)) = true ->
                   reported (column (loc_of d')) = true)).
Proof.
  split.
  - intros ep data s' Hfin. exact (call_flags_kept ep data e s s' Hfin).
  - intros calls s' Hfin. exact (run_flags_kept calls e s s' Hfin).
Qed.

Lemma reported_bit_monotone_witness :
  exists s' d',
    final_state
      (run [(add_overflow 1 2, 100); (missing_return, 200);
            (negate_overflow 0, 100)] kernel_env (site (5 + 2 ^ 31) false))
    = Some s' /\
    heap s' !! 100 = Some d' /\
    reported (column (loc_of d')) = true.
Proof.
  assert (Hrun : exists s',
             final_state
               (run [(add_overflow 1 2, 100); (missing_return, 200);
                     (negate_overflow 0, 100)] kernel_env
                  (site (5 + 2 ^ 31) false)) = Some s').
  { eexists. vm_compute. reflexivity. }
  destruct Hrun as [s' Hs'].
  destruct (proj2 (reported_bit_monotone kernel_env (site (5 + 2 ^ 31) false))
              _ s' Hs' 100 (overflow_data (a_c_10_5 (5 + 2 ^ 31)) 7) eq_refl)
    as (d' & Hd' & Hr).
  exists s', d'. split; [exact Hs' |]. split; [exact Hd' |].
  apply Hr. reflexivity.
Defined.

Lemma append_assoc (a b c : string) : (a +:+ b) +:+ c = a +:+ (b +:+ c).
Proof.
  induction a as [| ch a IH]; [reflexivity |].
  change (String ch ((a +:+ b) +:+ c) = String ch (a +:+ (b +:+ c))).
  now rewrite IH.
Qed.

Lemma append_empty_r (a : string) : a +:+ "" = a.
Proof.
  induction a as [| ch a IH]; [reflexivity |].
  change (String ch (a +:+ "") = String ch a). now rewrite IH.
Qed.

Lemma func_of_short_name (ep : entry_point) :
  func_of ep = "__ubsan_handle_" +:+ short_name ep.
Proof. destruct ep; reflexivity. Qed.

Lemma event_name_func_of (ep : entry_point) :
  event_name (func_of ep) = short_name ep.
Proof. rewrite func_of_short_name. apply event_name_strips. Qed.

Lemma format_contains (f file : string) (l c : Z) :
  contains f (format f file l c) /\
  contains file (format f file l c) /\
  contains (PRIu32 l) (format f file l c) /\
  contains (PRIu32 c) (format f file l c).
Proof.
  unfold contains, format. repeat split.
  - now exists "Undefined behavior ", (" at " +:+ file +:+ ":" +:+ PRIu32 l
                                       +:+ " col " +:+ PRIu32 c).
  - exists ("Undefined behavior " +:+ f +:+ " at "),
      (":" +:+ PRIu32 l +:+ " col " +:+ PRIu32 c).
    now rewrite !append_assoc.
  - exists ("Undefined behavior " +:+ f +:+ " at " +:+ file +:+ ":"),
      (" col " +:+ PRIu32 c).
    now rewrite !append_assoc.
  - exists ("Undefined behavior " +:+ f +:+ " at " +:+ file +:+ ":"
            +:+ PRIu32 l +:+ " col "), "".
    now rewrite !append_assoc, append_empty_r.
Qed.

(** C6.  On the first report of a location (reserved bit clear) a handler
    writes exactly one line,
    ["Undefined behavior <name> at <file>:<line> col <column>"], where
    <name> is the name of the handler with ["__ubsan_handle_"] taken off
    its front, <file> and <line> are those of the location, and <column>
    is its column without the reserved bit; the line contains each of the
    four. *)
Theorem diagnostic_line_content
  (ep : entry_point) (e : env) (s : state) (data : Z) (d : descriptor) :
  heap s !! data = Some d ->
  u32 (column (loc_of d)) ->
  reported (column (loc_of d)) = false ->
  exists s' text,
    final_state (call ep data e s) = Some s' /\
    emitted (trace s') = emitted (trace s) ++ [text] /\
    text =
      "Undefined behavior " +:+ short_name ep +:+ " at "
      +:+ file_name (loc_of d) +:+ ":" +:+ PRIu32 (line (loc_of d))
      +:+ " col " +:+ PRIu32 (column (loc_of d)) /\
    func_of ep = "__ubsan_handle_" +:+ short_name ep /\
    semantic_column (Z.lor (column (loc_of d)) UBSAN_LOC_REPORTED) =
      column (loc_of d) /\
    contains (short_name ep) text /\
    contains (file_name (loc_of d)) text /\
    contains (PRIu32 (line (loc_of d))) text /\
    contains (PRIu32 (column (loc_of d))) text.
Proof.
  intros Hd Hu Hr. pose proof (fresh_range _ Hu Hr) as Hc.
  rewrite (call_fresh ep data d) by assumption.
  set (text := format (short_name ep) (file_name (loc_of d))
                 (line (loc_of d)) (column (loc_of d))).
  assert (Ha : trace (announced (func_of ep) data d s) =
               trace s ++ [Emsg text]).
  { unfold announced. cbn [log trace mark with_heap].
    now rewrite event_name_func_of, semantic_column_lor. }
  exists (if noreturn ep || should_panic s
          then log (Panic (which_panic e)) (announced (func_of ep) data d s)
          else announced (func_of ep) data d s), text.
  split; [destruct (noreturn ep || should_panic s);
          [apply final_state_lost | reflexivity] |].
  split.
  { destruct (noreturn ep || should_panic s); cbn [log trace];
      rewrite Ha, !emitted_app; cbn [emitted]; [apply app_nil_r | reflexivity]. }
  split; [reflexivity |].
  split; [apply func_of_short_name |].
  split; [now apply semantic_column_lor |].
  apply format_contains.
Qed.

Lemma diagnostic_line_content_witness :
  exists s',
    final_state (call (load_invalid_value 0) 100 ta_env (site 5 false)) =
    Some s' /\
    emitted (trace s') =
    ["Undefined behavior load_invalid_value at a.c:10 col 5"].
Proof.
  destruct (diagnostic_line_content (load_invalid_value 0) ta_env
              (site 5 false) 100 (overflow_data (a_c_10_5 5) 7) eq_refl
              ltac:(unfold u32; cbn; lia) eq_refl)
    as (s' & text & Hfin & Hem & -> & _).
  exists s'. split; [exact Hfin | exact Hem].
Defined.

(** ** The handlers that never return *)

(** C2.  [__ubsan_handle_builtin_unreachable] and
    [__ubsan_handle_missing_return] never hand control back, whatever
    [should_panic] is, whether or not the location was reported before, and
    whether or not the panic primitive itself returns.  Once the report step
    (the reporter, called with [false]) has returned, they call the panic
    primitive; the run ends there, or in the idle loop behind the call for
    as long as it is watched. *)
Theorem fatal_kinds_never_return (e : env) (s : state) (data : Z) :
  let unreachable := __ubsan_handle_builtin_unreachable data e s in
  let missing := __ubsan_handle_missing_return data e s in
  returns unreachable = false /\
  returns missing = false /\
  forall d,
    heap s !! data = Some d ->
    exists s1 s2,
      ubsan_handle_error "__ubsan_handle_builtin_unreachable" data false e s =
        Returned tt s1 /\
      ubsan_handle_error "__ubsan_handle_missing_return" data false e s =
        Returned tt s2 /\
      unreachable =
        (if primitive_returns e then Spinning else Halted)
          (log (Panic (which_panic e)) s1) /\
      missing =
        (if primitive_returns e then Spinning else Halted)
          (log (Panic (which_panic e)) s2) /\
      emitted (trace s1) =
        emitted (trace s) ++
        (if reported (column (loc_of d)) then []
         else [format "builtin_unreachable" (file_name (loc_of d))
                 (line (loc_of d))
                 (semantic_column
                    (Z.lor (column (loc_of d)) UBSAN_LOC_REPORTED))]) /\
      panics (trace s1) = panics (trace s) /\
      panics (trace s2) = panics (trace s).
Proof.
  cbn zeta.
  change (__ubsan_handle_builtin_unreachable data e s)
    with (call builtin_unreachable data e s).
  change (__ubsan_handle_missing_return data e s)
    with (call missing_return data e s).
  destruct (heap s !! data) as [d |] eqn:Hd.
  - destruct (reported (column (loc_of d))) eqn:Hr.
    + rewrite !(call_set _ data d) by assumption. cbn [noreturn].
      rewrite !returns_lost. repeat split.
      intros d0 [= <-]. rewrite Hr. exists s, s.
      rewrite !(ubsan_handle_error_set _ _ _ d) by assumption.
      unfold lost. rewrite app_nil_r. now destruct (primitive_returns e).
    + rewrite !(call_fresh _ data d) by assumption. cbn [noreturn orb].
      rewrite !returns_lost. repeat split.
      intros d0 [= <-]. rewrite Hr.
      rewrite !(ubsan_handle_error_fresh _ _ _ d) by assumption.
      do 2 eexists. split; [reflexivity |]. split; [reflexivity |].
      unfold lost, announced. cbn [log trace mark with_heap func_of].
      rewrite !emitted_app, !panics_app. cbn [emitted panics].
      rewrite !app_nil_r.
      now destruct (primitive_returns e).
  - rewrite !call_null by assumption. repeat split. intros d [=].
Qed.

Lemma fatal_kinds_never_return_witness :
  returns (__ubsan_handle_builtin_unreachable 200 ta_env (site 5 false)) =
    false /\
  exists s1,
    __ubsan_handle_builtin_unreachable 200 ta_env (site 5 false) =
      Spinning (log (Panic (_utee_panic TEE_ERROR_GENERIC)) s1) /\
    emitted (trace s1) =
      ["Undefined behavior builtin_unreachable at a.c:10 col 5"].
Proof.
  destruct (fatal_kinds_never_return ta_env (site 5 false) 200)
    as (Hret & _ & H).
  split; [exact Hret |].
  destruct (H (unreachable_data (a_c_10_5 5)) eq_refl)
    as (s1 & s2 & _ & _ & Hu & _ & Hem & _).
  exists s1. split; [exact Hu | exact Hem].
Defined.

(** Against C7 as it is worded: the two handlers do not write the same
    line, each prints its own name. *)
Lemma type_mismatch_lines_differ :
  (trace <$> final_state (__ubsan_handle_type_mismatch 100 0 ta_env
                            mismatch_site)) =
    Some [Emsg "Undefined behavior type_mismatch at a.c:10 col 5"] /\
  (trace <$> final_state (__ubsan_handle_type_mismatch_v1 100 0 ta_env
                            mismatch_site)) =
    Some [Emsg "Undefined behavior type_mismatch_v1 at a.c:10 col 5"] /\
  ~ (forall data ptr e s,
       __ubsan_handle_type_mismatch data ptr e s =
       __ubsan_handle_type_mismatch_v1 data ptr e s).
Proof.
  split; [reflexivity |]. split; [reflexivity |].
  intros H. specialize (H 100 0 ta_env mismatch_site).
  apply (f_equal (fun o => trace <$> final_state o)) in H.
  vm_compute in H. discriminate H.
Qed.

(** C7, as the code has it.  On the same descriptor in the same state the
    two type-mismatch handlers take the same path through the reporter:
    they end the same way, leave the same memory and the same
    [should_panic], call the panic primitive the same number of times, and
    write as many lines; the traces agree event by event except that the
    line of the one names [type_mismatch] where the line of the other names
    [type_mismatch_v1].  The pointer argument plays no part. *)
Theorem type_mismatch_variants_agree
  (data ptr ptr1 : Z) (e : env) (s : state) :
  let o := __ubsan_handle_type_mismatch data ptr e s in
  let o1 := __ubsan_handle_type_mismatch_v1 data ptr1 e s in
  same_control o o1 /\
  match final_state o, final_state o1 with
  | Some s', Some s1' =>
      heap s' = heap s1' /\
      should_panic s' = should_panic s1' /\
      panics (trace s') = panics (trace s1') /\
      Forall2 same_but_name (trace s') (trace s1')
  | None, None => True
  | _, _ => False
  end.
Proof.
  cbn zeta.
  change (__ubsan_handle_type_mismatch data ptr e s)
    with (call (type_mismatch ptr) data e s).
  change (__ubsan_handle_type_mismatch_v1 data ptr1 e s)
    with (call (type_mismatch_v1 ptr1) data e s).
  assert (Hsame : forall t : list event, Forall2 same_but_name t t).
  { intros t. induction t; constructor; [now left | assumption]. }
  destruct (heap s !! data) as [d |] eqn:Hd.
  - destruct (reported (column (loc_of d))) eqn:Hr.
    + rewrite !(call_set _ data d) by assumption. cbn.
      repeat split; apply Hsame.
    + rewrite !(call_fresh _ data d) by assumption. cbn [noreturn orb].
      assert (Hline : Forall2 same_but_name
                        (trace (announced (func_of (type_mismatch ptr)) data d s))
                        (trace (announced (func_of (type_mismatch_v1 ptr1)) data d s))).
      { unfold announced. cbn [log trace mark with_heap].
        apply Forall2_app; [apply Hsame |].
        constructor; [| constructor]. right. now do 3 eexists. }
      destruct (should_panic s).
      * unfold lost. destruct (primitive_returns e); cbn;
          (split; [exact I |]); repeat split;
          try (rewrite !panics_app; reflexivity);
          (apply Forall2_app; [exact Hline | apply Hsame]).
      * cbn. split; [exact I |]. repeat split.
        -- unfold announced. cbn [log trace mark with_heap].
           rewrite !panics_app. reflexivity.
        -- exact Hline.
  - rewrite !call_null by assumption. cbn. tauto.
Qed.

(** C8.  The operand arguments of a handler (left and right operand, old
    value, index, bound, value, pointer) have no influence: two calls of the
    same handler on the same descriptor in the same state that differ in
    those arguments only have the same outcome, that is the same line, the
    same column word, the same halt.  Nothing is read through them: a call
    faults exactly when its descriptor pointer points at no descriptor,
    wherever the operands point, and what the memory holds elsewhere
    than behind the descriptor pointer changes neither the control, nor
    the trace, nor the descriptor left behind. *)
Theorem operand_noninterference
  (ep ep' : entry_point) (data : Z) (e : env) (s : state) :
  same_handler ep ep' = true ->
  call ep data e s = call ep' data e s /\
  (call ep data e s = Fault <-> heap s !! data = None) /\
  forall h' : gmap Z descriptor,
    h' !! data = heap s !! data ->
    let o := call ep data e s in
    let o' := call ep' data e (with_heap h' s) in
    same_control o o' /\
    (trace <$> final_state o) = (trace <$> final_state o') /\
    ((fun s' => heap s' !! data) <$> final_state o) =
    ((fun s' => heap s' !! data) <$> final_state o').
Proof.
  intros Hsame.
  assert (Heq : forall s0, call ep data e s0 = call ep' data e s0).
  { intros s0. rewrite !call_funnel.
    destruct ep, ep'; try discriminate Hsame; reflexivity. }
  split; [apply Heq |]. split.
  - split.
    + intros Hf. destruct (heap s !! data) as [d |] eqn:Hd; [| reflexivity].
      exfalso. destruct (reported (column (loc_of d))) eqn:Hr.
      * rewrite (call_set ep data d) in Hf by assumption.
        destruct (noreturn ep); [| discriminate Hf].
        unfold lost in Hf. now destruct (primitive_returns e).
      * rewrite (call_fresh ep data d) in Hf by assumption.
        destruct (noreturn ep || should_panic s); [| discriminate Hf].
        unfold lost in Hf. now destruct (primitive_returns e).
    + apply call_null.
  - intros h' Hh'. cbn zeta. rewrite <- Heq.
    destruct (heap s !! data) as [d |] eqn:Hd.
    + assert (Hd' : heap (with_heap h' s) !! data = Some d) by exact Hh'.
      cbn [with_heap heap] in Hd'.
      destruct (reported (column (loc_of d))) eqn:Hr.
      * rewrite (call_set ep data d e s), (call_set ep data d e (with_heap h' s))
          by assumption.
        unfold lost.
        destruct (noreturn ep), (primitive_returns e); cbn;
          now rewrite Hd, Hd'.
      * rewrite (call_fresh ep data d e s),
          (call_fresh ep data d e (with_heap h' s)) by assumption.
        cbn [with_heap should_panic]. unfold lost.
        destruct (noreturn ep || should_panic s), (primitive_returns e); cbn;
          now rewrite !lookup_insert_eq.
    + rewrite (call_null ep data e s), (call_null ep data e (with_heap h' s));
        [now cbn | exact Hh' | exact Hd].
Qed.

Lemma operand_noninterference_witness :
  call (add_overflow 1 2) 100 ta_env (site 5 true) =
  call (add_overflow 200 0) 100 ta_env (site 5 true).
Proof.
  apply (operand_noninterference (add_overflow 1 2) (add_overflow 200 0) 100
           ta_env (site 5 true) eq_refl).
Defined.

(** The steps of a caller, one by one. *)

Lemma step_entry e data t s :
  at_pc t = Entry ->
  step e data t s =
  (move t (Load (if noreturn (handler t) then false else should_panic s)) None,
   s).
Proof. intros H. unfold step. now rewrite H. Qed.

Lemma step_load_null e data t s flag :
  at_pc t = Load flag ->
  heap s !! data = None ->
  step e data t s = (move t Faulted (observed t), s).
Proof. intros H Hd. unfold step, load_loc. now rewrite H, Hd. Qed.

Lemma step_load_set e data t s flag d :
  at_pc t = Load flag ->
  heap s !! data = Some d ->
  reported (column (loc_of d)) = true ->
  step e data t s = (move t (leave (handler t)) (Some true), s).
Proof.
  intros H Hd Hr. unfold step, load_loc.
  now rewrite H, Hd, test_reported, Hr.
Qed.

Lemma step_load_fresh e data t s flag d :
  at_pc t = Load flag ->
  heap s !! data = Some d ->
  reported (column (loc_of d)) = false ->
  step e data t s = (move t (Cas flag (column (loc_of d))) None, s).
Proof.
  intros H Hd Hr. unfold step, load_loc.
  now rewrite H, Hd, test_reported, Hr.
Qed.

Lemma step_cas_null e data t s flag c :
  at_pc t = Cas flag c ->
  heap s !! data = None ->
  step e data t s = (move t Faulted (observed t), s).
Proof. intros H Hd. unfold step, atomic_cas_u32. now rewrite H, Hd. Qed.

Lemma step_cas_won e data t s flag d :
  at_pc t = Cas flag (column (loc_of d)) ->
  heap s !! data = Some d ->
  step e data t s = (move t (Emit flag) (Some false), mark data d s).
Proof.
  intros H Hd. unfold step, atomic_cas_u32.
  now rewrite H, Hd, Z.eqb_refl.
Qed.

Lemma step_cas_lost e data t s flag c d :
  at_pc t = Cas flag c ->
  heap s !! data = Some d ->
  column (loc_of d) <> c ->
  step e data t s = (move t (leave (handler t)) (Some true), s).
Proof.
  intros H Hd Hne. unfold step, atomic_cas_u32. rewrite H, Hd.
  destruct (Z.eqb_spec (column (loc_of d)) c); [contradiction | reflexivity].
Qed.

Lemma step_emit_null e data t s flag :
  at_pc t = Emit flag ->
  heap s !! data = None ->
  step e data t s = (move t Faulted (observed t), s).
Proof. intros H Hd. unfold step, load_loc. now rewrite H, Hd. Qed.

Lemma step_emit e data t s flag d :
  at_pc t = Emit flag ->
  heap s !! data = Some d ->
  step e data t s =
  (move t (if flag then Call_panic else leave (handler t)) (observed t),
   log (Emsg (format (event_name (func_of (handler t)))
                (file_name (loc_of d)) (line (loc_of d))
                (semantic_column (column (loc_of d))))) s).
Proof. intros H Hd. unfold step, load_loc. now rewrite H, Hd. Qed.

Lemma step_call_panic e data t s :
  at_pc t = Call_panic ->
  step e data t s =
  (move t (if primitive_returns e then Idle else Gone) (observed t),
   log (Panic (which_panic e)) s).
Proof.
  intros H. unfold step, platform_panic. rewrite H.
  fold (which_panic e). now destruct (primitive_returns e).
Qed.

Lemma step_finished e data t s : finished t = true -> step e data t s = (t, s).
Proof. unfold finished, step. now destruct (at_pc t). Qed.

Lemma turn_solo e data s t :
  turn e data {| shared := s; threads := [t] |} 0 =
  {| shared := snd (step e data t s); threads := [fst (step e data t s)] |}.
Proof. reflexivity. Qed.

Ltac solo_turn lem :=
  rewrite turn_solo; erewrite lem by (reflexivity || eassumption);
  cbn [fst snd move handler].

Ltac solo_rest e :=
  repeat (rewrite turn_solo, step_finished
            by (now destruct (primitive_returns e));
          cbn [fst snd]);
  unfold lost; now destruct (primitive_returns e).

(** A caller that is alone goes through its handler as the sequential
    reading of the code says: five turns are enough for every path. *)
Lemma solo_refines_call (ep : entry_point) (data : Z) (e : env) (s : state) :
  outcome_of (exec e data [0; 0; 0; 0; 0]%nat (start s [ep])) =
  Some (call ep data e s).
Proof.
  unfold exec, start. cbn [fold_left map].
  solo_turn step_entry.
  destruct (heap s !! data) as [d |] eqn:Hd.
  - destruct (reported (column (loc_of d))) eqn:Hr.
    + solo_turn step_load_set.
      rewrite (call_set ep data d) by assumption. unfold leave.
      destruct (noreturn ep) eqn:Hn.
      * solo_turn step_call_panic. solo_rest e.
      * solo_rest e.
    + solo_turn step_load_fresh.
      rewrite (call_fresh ep data d) by assumption.
      solo_turn step_cas_won.
      rewrite turn_solo.
      erewrite step_emit
        by (reflexivity || apply (lookup_announced "" data d s)).
      cbn [fst snd move handler].
      rewrite loc_of_set_column. cbn [file_name line column].
      fold (announced (func_of ep) data d s). unfold leave.
      destruct (noreturn ep) eqn:Hn; cbn [orb].
      * solo_turn step_call_panic. solo_rest e.
      * destruct (should_panic s).
        -- solo_turn step_call_panic. solo_rest e.
        -- solo_rest e.
  - solo_turn step_load_null. rewrite call_null by assumption. solo_rest e.
Qed.

Lemma insert_others (P : thread -> Prop) (l : list thread) (i : nat)
  (t' : thread) (Q : nat -> Prop) :
  (forall j t, Q j -> l !! j = Some t -> P t) ->
  (Q i -> P t') ->
  forall j t, Q j -> <[i := t']> l !! j = Some t -> P t.
Proof.
  intros Hold Hnew j t Hq Hj.
  apply list_lookup_insert_Some in Hj as [(-> & -> & _) | (_ & Hj)].
  - now apply Hnew.
  - now apply (Hold j).
Qed.

Lemma lines_log_panic (s : state) (c : panic_call) :
  emitted (trace (log (Panic c) s)) = emitted (trace s).
Proof. cbn [log trace]. rewrite emitted_app. apply app_nil_r. Qed.

Lemma lines_log_emsg (s : state) (text : string) :
  emitted (trace (log (Emsg text) s)) = emitted (trace s) ++ [text].
Proof. cbn [log trace]. now rewrite emitted_app. Qed.

Lemma lor_reported_changes (c : Z) :
  reported c = false -> Z.lor c UBSAN_LOC_REPORTED <> c.
Proof.
  intros Hr Heq. pose proof (reported_lor c) as H. rewrite Heq in H. congruence.
Qed.

Section Race.

Variables (e : env) (data : Z) (d : descriptor) (s0 : state) (n : nat).
Hypothesis Hd0 : heap s0 !! data = Some d.
Hypothesis Hfresh : reported (column (loc_of d)) = false.

Lemma turn_untouched (sys : system) (i : nat) :
  length (threads sys) = n ->
  heap (shared sys) = heap s0 ->
  lines sys = emitted (trace s0) ->
  (forall i t, threads sys !! i = Some t -> early (column (loc_of d)) t) ->
  race_inv data d s0 n (turn e data sys i).
Proof.
  intros Hlen Hheap Hlines Hall. unfold turn.
  destruct (threads sys !! i) as [t |] eqn:Hi; [| now apply Untouched].
  assert (Hd : heap (shared sys) !! data = Some d) by now rewrite Hheap.
  destruct (Hall i t Hi) as [Hobs Hpc].
  destruct (at_pc t) as [| flag | flag c | | | | | |] eqn:Hat;
    try contradiction.
  - rewrite step_entry by assumption. cbn [fst snd].
    apply Untouched; cbn [threads shared];
      [now rewrite length_insert | assumption | assumption |].
    intros j tj. apply (insert_others _ _ _ _ (fun _ => True)); auto.
    + intros k tk _. apply Hall.
    + intros _. now split.
  - rewrite (step_load_fresh e data t _ flag d) by assumption.
    cbn [fst snd].
    apply Untouched; cbn [threads shared];
      [now rewrite length_insert | assumption | assumption |].
    intros j tj. apply (insert_others _ _ _ _ (fun _ => True)); auto.
    + intros k tk _. apply Hall.
    + intros _. now split.
  - subst c. rewrite (step_cas_won e data t _ flag d) by assumption.
    cbn [fst snd].
    apply (Claimed _ _ _ _ _ i (move t (Emit flag) (Some false)));
      cbn [threads shared].
    + now rewrite length_insert.
    + unfold mark, with_heap. cbn [heap]. now rewrite Hheap.
    + apply list_lookup_insert_eq. now apply lookup_lt_Some in Hi.
    + left. split; [split; [reflexivity | now exists flag] | exact Hlines].
    + intros j tj Hj Hlook. left.
      rewrite list_lookup_insert_ne in Hlook by congruence.
      now apply (Hall j).
Qed.

(** The bit is set: what must be shown when the caller that set it
    moves, and when another one does. *)
Lemma claimed_winner (sys : system) (w : nat) (tw tw' : thread) (s' : state) :
  length (threads sys) = n ->
  heap s' = heap (mark data d s0) ->
  threads sys !! w = Some tw ->
  (announcing tw' /\ emitted (trace s') = emitted (trace s0) \/
   announced_by tw' /\
   emitted (trace s') = emitted (trace s0) ++ [line_of d tw']) ->
  (forall i t, i <> w -> threads sys !! i = Some t ->
               early (column (loc_of d)) t \/ silent t) ->
  race_inv data d s0 n {| shared := s'; threads := <[w := tw']> (threads sys) |}.
Proof.
  intros Hlen Hheap Hw Hline Hothers.
  apply (Claimed _ _ _ _ _ w tw'); cbn [threads shared].
  - now rewrite length_insert.
  - exact Hheap.
  - apply list_lookup_insert_eq. now apply lookup_lt_Some in Hw.
  - exact Hline.
  - intros j tj Hj Hlook.
    rewrite list_lookup_insert_ne in Hlook by congruence.
    now apply (Hothers j).
Qed.

Lemma claimed_other (sys : system) (i w : nat) (tw t' : thread) (s' : state) :
  i <> w ->
  length (threads sys) = n ->
  heap s' = heap (mark data d s0) ->
  threads sys !! w = Some tw ->
  (announcing tw /\ lines sys = emitted (trace s0) \/
   announced_by tw /\ lines sys = emitted (trace s0) ++ [line_of d tw]) ->
  emitted (trace s') = lines sys ->
  (forall i t, i <> w -> threads sys !! i = Some t ->
               early (column (loc_of d)) t \/ silent t) ->
  early (column (loc_of d)) t' \/ silent t' ->
  race_inv data d s0 n {| shared := s'; threads := <[i := t']> (threads sys) |}.
Proof.
  intros Hne Hlen Hheap Hw Hline Hsame Hothers Hnew.
  apply (Claimed _ _ _ _ _ w tw); cbn [threads shared].
  - now rewrite length_insert.
  - exact Hheap.
  - now rewrite list_lookup_insert_ne.
  - unfold lines. cbn [shared]. now rewrite Hsame.
  - apply (insert_others _ _ _ _ (fun j => j <> w)); auto.
Qed.

Lemma turn_claimed (sys : system) (i w : nat) (tw : thread) :
  length (threads sys) = n ->
  heap (shared sys) = heap (mark data d s0) ->
  threads sys !! w = Some tw ->
  (announcing tw /\ lines sys = emitted (trace s0) \/
   announced_by tw /\ lines sys = emitted (trace s0) ++ [line_of d tw]) ->
  (forall i t, i <> w -> threads sys !! i = Some t ->
               early (column (loc_of d)) t \/ silent t) ->
  race_inv data d s0 n (turn e data sys i).
Proof.
  intros Hlen Hheap Hw Hline Hothers. unfold turn.
  destruct (threads sys !! i) as [t |] eqn:Hi;
    [| now apply (Claimed _ _ _ _ _ w tw)].
  pose (d1 := set_column (Z.lor (column (loc_of d)) UBSAN_LOC_REPORTED) d).
  assert (Hd : heap (shared sys) !! data = Some d1).
  { rewrite Hheap. unfold mark, with_heap. cbn [heap].
    apply lookup_insert_eq. }
  assert (Hr1 : reported (column (loc_of d1)) = true).
  { unfold d1. rewrite loc_of_set_column. apply reported_lor. }
  assert (Hc1 : column (loc_of d1) <> column (loc_of d)).
  { unfold d1. rewrite loc_of_set_column. cbn [column].
    now apply lor_reported_changes. }
  destruct (Nat.eq_dec i w) as [-> | Hne].
  - (* the caller that set the bit *)
    rewrite Hw in Hi. injection Hi as <-.
    destruct Hline as [[[Hobs [flag Hat]] Hl] | [[Hobs Hpc] Hl]].
    + rewrite (step_emit e data tw _ flag d1) by assumption. cbn [fst snd].
      apply (claimed_winner sys w tw); try assumption. right. split.
      * split; [exact Hobs |]. cbn [move at_pc]. unfold leave.
        now destruct flag, (noreturn (handler tw)).
      * rewrite lines_log_emsg. fold (lines sys). rewrite Hl.
        unfold line_of, d1. rewrite loc_of_set_column. reflexivity.
    + destruct (at_pc tw) eqn:Hat; try contradiction.
      * rewrite step_call_panic by assumption. cbn [fst snd].
        apply (claimed_winner sys w tw); try assumption. right. split.
        -- split; [exact Hobs |]. cbn [move at_pc].
           now destruct (primitive_returns e).
        -- rewrite lines_log_panic. exact Hl.
      * rewrite step_finished by (unfold finished; now rewrite Hat).
        cbn [fst snd].
        apply (claimed_winner sys w tw); try assumption. right.
        split; [split; [exact Hobs | now rewrite Hat] | exact Hl].
      * rewrite step_finished by (unfold finished; now rewrite Hat).
        cbn [fst snd].
        apply (claimed_winner sys w tw); try assumption. right.
        split; [split; [exact Hobs | now rewrite Hat] | exact Hl].
      * rewrite step_finished by (unfold finished; now rewrite Hat).
        cbn [fst snd].
        apply (claimed_winner sys w tw); try assumption. right.
        split; [split; [exact Hobs | now rewrite Hat] | exact Hl].
  - (* any other caller *)
    destruct (Hothers i t Hne Hi) as [[Hobs Hpc] | [Hobs Hpc]].
    + destruct (at_pc t) as [| flag | flag c | | | | | |] eqn:Hat;
        try contradiction.
      * rewrite step_entry by assumption. cbn [fst snd].
        apply (claimed_other sys i w tw); try assumption; [reflexivity |].
        left. now split.
      * rewrite (step_load_set e data t _ flag d1) by assumption.
        cbn [fst snd].
        apply (claimed_other sys i w tw); try assumption; [reflexivity |].
        right. split; [reflexivity |]. cbn [move at_pc handler].
        unfold leave. now destruct (noreturn (handler t)) eqn:Hn.
      * subst c.
        rewrite (step_cas_lost e data t _ flag (column (loc_of d)) d1)
          by assumption.
        cbn [fst snd].
        apply (claimed_other sys i w tw); try assumption; [reflexivity |].
        right. split; [reflexivity |]. cbn [move at_pc handler].
        unfold leave. now destruct (noreturn (handler t)) eqn:Hn.
    + destruct (at_pc t) eqn:Hat; try contradiction.
      * rewrite step_call_panic by assumption. cbn [fst snd].
        apply (claimed_other sys i w tw); try assumption;
          [apply lines_log_panic |].
        right. split; [exact Hobs |]. cbn [move at_pc handler].
        now destruct (primitive_returns e).
      * rewrite step_finished by (unfold finished; now rewrite Hat).
        cbn [fst snd].
        apply (claimed_other sys i w tw); try assumption; [reflexivity |].
        right. split; [exact Hobs | now rewrite Hat].
      * rewrite step_finished by (unfold finished; now rewrite Hat).
        cbn [fst snd].
        apply (claimed_other sys i w tw); try assumption; [reflexivity |].
        right. split; [exact Hobs | now rewrite Hat].
      * rewrite step_finished by (unfold finished; now rewrite Hat).
        cbn [fst snd].
        apply (claimed_other sys i w tw); try assumption; [reflexivity |].
        right. split; [exact Hobs | now rewrite Hat].
Qed.

Lemma turn_race_inv (sys : system) (i : nat) :
  race_inv data d s0 n sys -> race_inv data d s0 n (turn e data sys i).
Proof.
  intros [Hlen Hheap Hlines Hall | w tw Hlen Hheap Hw Hline Hothers].
  - now apply turn_untouched.
  - now apply (turn_claimed sys i w tw).
Qed.

Lemma exec_race_inv (sched : list nat) :
  forall sys, race_inv data d s0 n sys ->
              race_inv data d s0 n (exec e data sched sys).
Proof.
  induction sched as [| i sched IH]; intros sys Hinv; [exact Hinv |].
  cbn [exec fold_left]. apply IH. now apply turn_race_inv.
Qed.

Lemma start_race_inv (eps : list entry_point) :
  length eps = n -> race_inv data d s0 n (start s0 eps).
Proof.
  intros Hn. apply Untouched; cbn [start threads shared].
  - now rewrite length_map.
  - reflexivity.
  - reflexivity.
  - intros i t Hi. apply list_elem_of_lookup_2 in Hi.
    apply list_elem_of_In, in_map_iff in Hi as (ep & <- & _). now split.
Qed.

End Race.

Lemma step_handler e data t s : handler (fst (step e data t s)) = handler t.
Proof.
  unfold step, load_loc, atomic_cas_u32, platform_panic.
  destruct (at_pc t); try reflexivity.
  - destruct (heap s !! data); [| reflexivity].
    now destruct (negb _).
  - destruct (heap s !! data); [| reflexivity].
    now destruct (_ =? _).
  - now destruct (heap s !! data).
  - now destruct (primitive_returns e).
Qed.

Lemma turn_handlers e data sys i :
  map handler (threads (turn e data sys i)) = map handler (threads sys).
Proof.
  unfold turn. destruct (threads sys !! i) as [t |] eqn:Hi; [| reflexivity].
  cbn [threads].
  change (handler <$> <[i := (step e data t (shared sys)).1]> (threads sys) =
          handler <$> threads sys).
  rewrite list_fmap_insert, step_handler. apply list_insert_id.
  now rewrite list_lookup_fmap, Hi.
Qed.

Lemma exec_handlers e data sched :
  forall sys,
    map handler (threads (exec e data sched sys)) = map handler (threads sys).
Proof.
  induction sched as [| i sched IH]; intros sys; [reflexivity |].
  cbn [exec fold_left]. etransitivity; [apply IH | apply turn_handlers].
Qed.

(** The column word is written by the compare-and-swap alone. *)
Lemma step_writes_by_cas e data t s :
  heap (snd (step e data t s)) <> heap s ->
  exists flag c,
    at_pc t = Cas flag c /\
    atomic_cas_u32 data c (Z.lor c UBSAN_LOC_REPORTED) e s =
    Returned (true, c) (snd (step e data t s)).
Proof.
  unfold step, load_loc, platform_panic.
  destruct (at_pc t) as [| flag | flag c | flag | | | | |];
    try (intros H; now contradict H).
  - destruct (heap s !! data); [| intros H; now contradict H].
    destruct (negb _); intros H; now contradict H.
  - intros H. exists flag, c. split; [reflexivity |].
    revert H. unfold atomic_cas_u32.
    destruct (heap s !! data); [| intros H; now contradict H].
    destruct (_ =? _); [reflexivity | intros H; now contradict H].
  - destruct (heap s !! data); intros H; now contradict H.
  - destruct (primitive_returns e); intros H; now contradict H.
Qed.

(** * Further properties of the runtime *)

(** ** The name in the line *)

Lemma byte0_eq (a b : Ascii.ascii) (s1 s2 : string) :
  (byte0 (String a s1) =? byte0 (String b s2)) = true <-> a = b.
Proof.
  cbn [byte0]. rewrite Z.eqb_eq. split.
  - intros H. apply N2Z.inj in H.
    rewrite <- (Ascii.ascii_N_embedding a), <- (Ascii.ascii_N_embedding b).
    now rewrite H.
  - now intros ->.
Qed.

Lemma byte0_nonzero (a : Ascii.ascii) (s : string) :
  a <> Ascii.zero -> byte0 (String a s) <> 0.
Proof.
  intros Ha H. cbn [byte0] in H. apply Ha.
  rewrite <- (Ascii.ascii_N_embedding a).
  replace (Ascii.N_of_ascii a) with 0%N by lia. reflexivity.
Qed.

(** [memcmp] against a text without NUL over the length of that text tells
    whether the text is at the front. *)
Lemma memcmp_prefix (p : string) :
  forall s : string,
    (forall a, In a (list_ascii_of_string p) -> a <> Ascii.zero) ->
    (memcmp s p (String.length p) =? 0) = String.prefix p s.
Proof.
  induction p as [| a p IH]; intros s Hnz.
  - now destruct s.
  - assert (Ha : a <> Ascii.zero) by (apply Hnz; now left).
    assert (Hp : forall b, In b (list_ascii_of_string p) -> b <> Ascii.zero)
      by (intros b Hb; apply Hnz; now right).
    cbn [String.length memcmp].
    destruct s as [| b s].
    + cbn [String.prefix]. change (byte0 "") with 0.
      pose proof (byte0_nonzero a p Ha) as Hne.
      destruct (Z.eqb_spec 0 (byte0 (String a p))) as [Heq | _];
        [now rewrite <- Heq in Hne |].
      apply Z.eqb_neq. lia.
    + cbn [String.prefix advance].
      destruct (Ascii.ascii_dec a b) as [<- | Hab].
      * rewrite (proj2 (byte0_eq a a s p) eq_refl). apply IH, Hp.
      * destruct (byte0 (String b s) =? byte0 (String a p)) eqn:Hb.
        -- apply byte0_eq in Hb. congruence.
        -- apply Z.eqb_neq. apply Z.eqb_neq in Hb. lia.
Qed.

Lemma event_name_prefix (func : string) :
  event_name func =
  if String.prefix func_prefix func then advance 15 func else func.
Proof.
  unfold event_name.
  change (sizeof_func_prefix - 1)%nat with (String.length func_prefix).
  rewrite memcmp_prefix; [reflexivity |].
  intros a Ha. cbn in Ha.
  repeat (destruct Ha as [<- | Ha]; [discriminate |]). contradiction.
Qed.

(** X1.  The name [ubsan_handle_error] prints on a first report is decided
    by the fourteen characters at the front of [func]: when they are not
    ["__ubsan_handle"] the name is [func] as it is; when they are, the name
    is what follows the fifteenth character of [func], whatever that
    character is. *)
Theorem event_name_rule
  (func : string) (loc : Z) (flag : bool) (e : env) (s : state)
  (d : descriptor) :
  heap s !! loc = Some d ->
  reported (column (loc_of d)) = false ->
  exists s' name,
    final_state (ubsan_handle_error func loc flag e s) = Some s' /\
    emitted (trace s') =
      emitted (trace s) ++
      [format name (file_name (loc_of d)) (line (loc_of d))
         (semantic_column (Z.lor (column (loc_of d)) UBSAN_LOC_REPORTED))] /\
    (String.prefix "__ubsan_handle" func = false -> name = func) /\
    (forall c rest, func = "__ubsan_handle" +:+ String c rest -> name = rest).
Proof.
  intros Hd Hr.
  rewrite (ubsan_handle_error_fresh func loc flag d) by assumption.
  exists (if flag then log (Panic (which_panic e)) (announced func loc d s)
          else announced func loc d s), (event_name func).
  split; [destruct flag; [apply final_state_lost | reflexivity] |].
  split.
  { destruct flag; cbn [log trace]; unfold announced; cbn [log trace mark with_heap];
      rewrite !emitted_app; cbn [emitted]; [apply app_nil_r | reflexivity]. }
  rewrite event_name_prefix. split.
  - intros Hp. change func_prefix with "__ubsan_handle". now rewrite Hp.
  - intros c rest ->. reflexivity.
Qed.

Lemma event_name_rule_witness :
  exists s',
    final_state (ubsan_handle_error "handle_overflow" 100 false ta_env
                   (site 5 false)) = Some s' /\
    emitted (trace s') = ["Undefined behavior handle_overflow at a.c:10 col 5"].
Proof.
  destruct (event_name_rule "handle_overflow" 100 false ta_env (site 5 false)
              (overflow_data (a_c_10_5 5) 7) eq_refl eq_refl)
    as (s' & name & Hfin & Hem & Hother & _).
  exists s'. split; [exact Hfin |].
  rewrite Hem, (Hother eq_refl). reflexivity.
Defined.

(** ** The test and the halt on their own *)

Lemma lor_reported_other_bits (c n : Z) :
  n <> 31 -> Z.testbit (Z.lor c UBSAN_LOC_REPORTED) n = Z.testbit c n.
Proof.
  intros Hn. rewrite Z.lor_spec, UBSAN_LOC_REPORTED_eq.
  rewrite Z.pow2_bits_false by congruence. apply orb_false_r.
Qed.

(** X2.  [was_already_reported] is a test-and-set of bit 31 of the column:
    it returns the bit as it was and leaves it set.  Nothing else changes:
    the other bits of the column, the rest of the descriptor, the other
    descriptors, the output and [should_panic] are as before.  Asked again
    it answers true and changes nothing. *)
Theorem was_already_reported_test_and_set
  (loc : Z) (d : descriptor) (e : env) (s : state) :
  heap s !! loc = Some d ->
  exists s' d',
    was_already_reported loc e s =
      Returned (reported (column (loc_of d))) s' /\
    heap s' = <[loc := d']> (heap s) /\
    reported (column (loc_of d')) = true /\
    (forall n, n <> 31 ->
               Z.testbit (column (loc_of d')) n =
               Z.testbit (column (loc_of d)) n) /\
    set_column (column (loc_of d)) d' = d /\
    trace s' = trace s /\
    should_panic s' = should_panic s /\
    was_already_reported loc e s' = Returned true s'.
Proof.
  intros Hd. destruct (reported (column (loc_of d))) eqn:Hr.
  - exists s, d. rewrite (was_already_reported_set loc d) by assumption.
    repeat split; try reflexivity.
    + symmetry. now apply insert_id.
    + exact Hr.
    + apply set_column_same.
  - exists (mark loc d s),
      (set_column (Z.lor (column (loc_of d)) UBSAN_LOC_REPORTED) d).
    rewrite (was_already_reported_fresh loc d) by assumption.
    rewrite loc_of_set_column. cbn [column].
    repeat split; try reflexivity.
    + apply reported_lor.
    + intros n Hn. now apply lor_reported_other_bits.
    + destruct d as [[] | [] | [] | [] | [] | [] | [] | [] | []]; reflexivity.
    + apply (was_already_reported_set loc
               (set_column (Z.lor (column (loc_of d)) UBSAN_LOC_REPORTED) d)).
      * unfold mark, with_heap. cbn [heap]. apply lookup_insert_eq.
      * rewrite loc_of_set_column. apply reported_lor.
Qed.

Lemma was_already_reported_test_and_set_witness :
  exists s',
    was_already_reported 100 ta_env (site 5 true) = Returned false s' /\
    was_already_reported 100 ta_env s' = Returned true s'.
Proof.
  destruct (was_already_reported_test_and_set 100
              (overflow_data (a_c_10_5 5) 7) ta_env (site 5 true) eq_refl)
    as (s' & d' & Hfirst & _ & _ & _ & _ & _ & _ & Hagain).
  exists s'. split; [exact Hfirst | exact Hagain].
Defined.

(** X3.  [ubsan_panic] calls the panic primitive of its build once, with
    the argument the build fixes ([panic()] in the kernel, [_ldelf_panic(2)]
    in ldelf, [_utee_panic(TEE_ERROR_GENERIC)] in a TA), and never returns:
    control stays with the primitive or, if the primitive comes back, in
    the loop behind it, however long the loop is watched.  Memory, lines
    and [should_panic] are untouched. *)
Theorem ubsan_panic_never_returns (e : env) (s : state) :
  exists s',
    final_state (ubsan_panic e s) = Some s' /\
    returns (ubsan_panic e s) = false /\
    trace s' =
      trace s ++
      [Panic match context e with
             | KERNEL => panic
             | LDELF => _ldelf_panic 2
             | USER_TA => _utee_panic TEE_ERROR_GENERIC
             end] /\
    heap s' = heap s /\
    should_panic s' = should_panic s /\
    emitted (trace s') = emitted (trace s) /\
    (ubsan_panic e s = Halted s' <-> primitive_returns e = false) /\
    (ubsan_panic e s = Spinning s' <-> primitive_returns e = true).
Proof.
  exists (log (Panic (which_panic e)) s). rewrite ubsan_panic_spec.
  rewrite final_state_lost, returns_lost, lines_log_panic. unfold lost.
  repeat split; try reflexivity; destruct (primitive_returns e);
    congruence.
Qed.

(** ** Runs of calls *)

Lemma run_cons ep data rest (e : env) (s : state) :
  run ((ep, data) :: rest) e s =
  match call ep data e s with
  | Returned _ s1 => run rest e s1
  | Halted s1 => Halted s1
  | Spinning s1 => Spinning s1
  | Fault => Fault
  end.
Proof. reflexivity. Qed.

(** What holds from call to call holds from end to end of a run. *)
Lemma run_lift (R : state -> state -> Prop) (e : env) :
  (forall s, R s s) ->
  (forall s1 s2 s3, R s1 s2 -> R s2 s3 -> R s1 s3) ->
  (forall ep data s s', final_state (call ep data e s) = Some s' -> R s s') ->
  forall calls s s', final_state (run calls e s) = Some s' -> R s s'.
Proof.
  intros Hrefl Htrans Hcall calls.
  induction calls as [| [ep data] calls IH]; intros s s' Hfin.
  - cbn in Hfin. injection Hfin as <-. apply Hrefl.
  - rewrite run_cons in Hfin.
    destruct (call ep data e s) as [[] s1 | s1 | s1 |] eqn:Hc;
      try (apply (Hcall ep data); now rewrite Hc).
    apply Htrans with s1; [| now apply IH].
    apply (Hcall ep data). now rewrite Hc.
Qed.

Lemma only_marks_refl (s : state) : only_marks s s.
Proof.
  split; [reflexivity |]. intros p. destruct (heap s !! p); [now left | easy].
Qed.

Lemma only_marks_trans (s1 s2 s3 : state) :
  only_marks s1 s2 -> only_marks s2 s3 -> only_marks s1 s3.
Proof.
  intros [Hp12 H12] [Hp23 H23]. split; [congruence |]. intros p.
  specialize (H12 p). specialize (H23 p).
  destruct (heap s1 !! p) as [d |].
  - destruct H12 as [H12 | [Hr H12]]; rewrite H12 in H23.
    + exact H23.
    + right. split; [exact Hr |].
      destruct H23 as [H23 | [Hr' _]]; [exact H23 |].
      rewrite loc_of_set_column in Hr'. cbn [column] in Hr'.
      now rewrite reported_lor in Hr'.
  - now rewrite H12 in H23.
Qed.

Lemma should_panic_final ep data (e : env) (s s' : state) :
  final_state (call ep data e s) = Some s' -> should_panic s' = should_panic s.
Proof.
  intros Hfin. destruct (heap s !! data) as [d |] eqn:Hd.
  - destruct (reported (column (loc_of d))) eqn:Hr.
    + rewrite (call_set ep data d) in Hfin by assumption.
      destruct (noreturn ep);
        [rewrite final_state_lost in Hfin |]; now injection Hfin as <-.
    + rewrite (call_fresh ep data d) in Hfin by assumption.
      destruct (noreturn ep || should_panic s);
        [rewrite final_state_lost in Hfin |]; now injection Hfin as <-.
  - now rewrite call_null in Hfin.
Qed.

Lemma call_only_marks ep data (e : env) (s s' : state) :
  final_state (call ep data e s) = Some s' -> only_marks s s'.
Proof.
  intros Hfin. split; [now apply (should_panic_final ep data e) |].
  intros p. destruct (heap s !! data) as [d |] eqn:Hd.
  - destruct (reported (column (loc_of d))) eqn:Hr.
    + rewrite (call_set ep data d) in Hfin by assumption.
      assert (Hh : heap s' = heap s).
      { destruct (noreturn ep);
          [rewrite final_state_lost in Hfin |]; now injection Hfin as <-. }
      rewrite Hh. destruct (heap s !! p); [now left | reflexivity].
    + rewrite (call_fresh ep data d) in Hfin by assumption.
      assert (Hh : heap s' = heap (announced (func_of ep) data d s)).
      { destruct (noreturn ep || should_panic s);
          [rewrite final_state_lost in Hfin |]; now injection Hfin as <-. }
      rewrite Hh, heap_announced.
      destruct (Z.eq_dec data p) as [<- | Hne].
      * rewrite Hd, lookup_insert_eq. now right.
      * rewrite lookup_insert_ne by exact Hne.
        destruct (heap s !! p); [now left | reflexivity].
  - now rewrite call_null in Hfin.
Qed.

(** X4.  During a run of calls the reserved bit is all that changes in
    memory: no descriptor appears or disappears, every descriptor is either
    as it was or has its column or-ed with [UBSAN_LOC_REPORTED] (and only a
    column whose bit was clear is written), so file names, lines and the
    other members are never touched; [should_panic] is never written. *)
Theorem run_only_marks
  (calls : list (entry_point * Z)) (e : env) (s s' : state) :
  final_state (run calls e s) = Some s' ->
  should_panic s' = should_panic s /\
  dom (heap s') = dom (heap s) /\
  forall p,
    match heap s !! p with
    | None => heap s' !! p = None
    | Some d =>
        heap s' !! p = Some d \/
        reported (column (loc_of d)) = false /\
        heap s' !! p =
        Some (set_column (Z.lor (column (loc_of d)) UBSAN_LOC_REPORTED) d)
    end.
Proof.
  intros Hfin.
  destruct (run_lift only_marks e only_marks_refl only_marks_trans
              (fun ep data => call_only_marks ep data e) calls s s' Hfin)
    as [Hpol Hmem].
  split; [exact Hpol |]. split; [| exact Hmem].
  apply set_eq. intros p. rewrite !elem_of_dom. specialize (Hmem p).
  destruct (heap s !! p) as [d |].
  - destruct Hmem as [-> | [_ ->]]; split; intros _; eauto.
  - rewrite Hmem. reflexivity.
Qed.

Lemma run_only_marks_witness :
  exists s',
    final_state (run [(add_overflow 1 2, 100); (missing_return, 200)]
                   ta_env (site 5 false)) = Some s' /\
    dom (heap s') = dom (heap (site 5 false)).
Proof.
  assert (Hrun : exists s',
             final_state (run [(add_overflow 1 2, 100); (missing_return, 200)]
                            ta_env (site 5 false)) = Some s').
  { eexists. vm_compute. reflexivity. }
  destruct Hrun as [s' Hs']. exists s'. split; [exact Hs' |].
  apply (run_only_marks _ ta_env (site 5 false) s' Hs').
Defined.

Lemma reported_count_mark (h : gmap Z descriptor) (data : Z) (d : descriptor) :
  h !! data = Some d ->
  reported (column (loc_of d)) = false ->
  reported_count
    (<[data := set_column (Z.lor (column (loc_of d)) UBSAN_LOC_REPORTED) d]> h) =
  S (reported_count h).
Proof.
  intros Hd Hr. unfold reported_count.
  rewrite map_filter_insert_True.
  - apply map_size_insert_None, map_lookup_filter_None. right.
    intros x Hx. rewrite Hd in Hx. injection Hx as <-. simpl.
    intros Ht. congruence.
  - cbn. rewrite loc_of_set_column. apply reported_lor.
Qed.

Lemma call_line_per_mark ep data (e : env) (s s' : state) :
  final_state (call ep data e s) = Some s' -> line_per_mark s s'.
Proof.
  intros Hfin. unfold line_per_mark.
  destruct (heap s !! data) as [d |] eqn:Hd.
  - destruct (reported (column (loc_of d))) eqn:Hr.
    + rewrite (call_set ep data d) in Hfin by assumption.
      destruct (noreturn ep).
      * rewrite final_state_lost in Hfin. injection Hfin as <-.
        rewrite lines_log_panic. reflexivity.
      * now injection Hfin as <-.
    + rewrite (call_fresh ep data d) in Hfin by assumption.
      assert (Ha : (length (emitted (trace (announced (func_of ep) data d s)))
                    + reported_count (heap s) =
                    length (emitted (trace s))
                    + reported_count (heap (announced (func_of ep) data d s)))%nat).
      { rewrite heap_announced, reported_count_mark by assumption.
        unfold announced. rewrite lines_log_emsg, length_app. cbn. lia. }
      destruct (noreturn ep || should_panic s).
      * rewrite final_state_lost in Hfin. injection Hfin as <-.
        rewrite lines_log_panic. exact Ha.
      * injection Hfin as <-. exact Ha.
  - now rewrite call_null in Hfin.
Qed.

(** X5.  One line per location, counted: over any run of calls, on any
    descriptors, the number of lines written equals the number of locations
    that went from "not reported" to "reported". *)
Theorem run_line_per_mark
  (calls : list (entry_point * Z)) (e : env) (s s' : state) :
  final_state (run calls e s) = Some s' ->
  (length (emitted (trace s')) + reported_count (heap s) =
   length (emitted (trace s)) + reported_count (heap s'))%nat.
Proof.
  apply (run_lift line_per_mark e).
  - intros s1. reflexivity.
  - unfold line_per_mark. intros s1 s2 s3 H12 H23. lia.
  - intros ep data. apply call_line_per_mark.
Qed.

Lemma run_line_per_mark_witness :
  exists s',
    final_state
      (run [(add_overflow 1 2, 100); (add_overflow 1 2, 100);
            (sub_overflow 0 0, 100); (missing_return, 200)]
         ta_env (site 5 false)) = Some s' /\
    length (emitted (trace s')) = 2%nat /\
    reported_count (heap s') = 2%nat.
Proof.
  assert (Hrun : exists s',
             final_state
               (run [(add_overflow 1 2, 100); (add_overflow 1 2, 100);
                     (sub_overflow 0 0, 100); (missing_return, 200)]
                  ta_env (site 5 false)) = Some s').
  { eexists. vm_compute. reflexivity. }
  destruct Hrun as [s' Hs']. exists s'. split; [exact Hs' |].
  pose proof (run_line_per_mark _ ta_env (site 5 false) s' Hs') as Hcount.
  assert (H0 : reported_count (heap (site 5 false)) = 0%nat) by reflexivity.
  assert (Hl : length (emitted (trace s')) = 2%nat).
  { vm_compute in Hs'. injection Hs' as <-. reflexivity. }
  rewrite H0, Hl in Hcount. cbn in Hcount. split; [exact Hl | lia].
Defined.

Lemma call_trace ep data (e : env) (s s' : state) :
  final_state (call ep data e s) = Some s' ->
  exists suf,
    trace s' = trace s ++ suf /\
    if returns (call ep data e s) then panics suf = []
    else exists pre, suf = pre ++ [Panic (which_panic e)] /\ panics pre = [].
Proof.
  intros Hfin. destruct (heap s !! data) as [d |] eqn:Hd.
  - destruct (reported (column (loc_of d))) eqn:Hr.
    + rewrite (call_set ep data d) in Hfin |- * by assumption.
      destruct (noreturn ep).
      * rewrite final_state_lost in Hfin. injection Hfin as <-.
        rewrite returns_lost. exists [Panic (which_panic e)].
        split; [reflexivity |]. now exists [].
      * injection Hfin as <-. exists []. now rewrite app_nil_r.
    + rewrite (call_fresh ep data d) in Hfin |- * by assumption.
      unfold announced in *. set (ev := Emsg _) in *.
      destruct (noreturn ep || should_panic s).
      * rewrite final_state_lost in Hfin. injection Hfin as <-.
        rewrite returns_lost. exists [ev; Panic (which_panic e)].
        cbn [log trace mark with_heap]. rewrite <- app_assoc.
        split; [reflexivity |]. now exists [ev].
      * injection Hfin as <-. exists [ev]. now cbn.
  - now rewrite call_null in Hfin.
Qed.

(** X6.  A run of calls loses control through the panic primitive and in
    no other way.  The trace only grows; if the run returns, the primitive
    was not called in it; if it does not return (and did not fault), the
    primitive was called exactly once and that call is the last event, so
    nothing is written after it. *)
Theorem run_halts_through_panic
  (calls : list (entry_point * Z)) (e : env) :
  forall s s',
    final_state (run calls e s) = Some s' ->
    exists suf,
      trace s' = trace s ++ suf /\
      (returns (run calls e s) = true -> panics suf = []) /\
      (returns (run calls e s) = false ->
       exists pre, suf = pre ++ [Panic (which_panic e)] /\ panics pre = []).
Proof.
  induction calls as [| [ep data] calls IH]; intros s s' Hfin.
  - cbn in Hfin. injection Hfin as <-. exists []. rewrite app_nil_r.
    cbn. split; [reflexivity |]. split; [reflexivity | discriminate].
  - rewrite run_cons in Hfin |- *.
    destruct (call ep data e s) as [[] s1 | s1 | s1 |] eqn:Hc.
    + destruct (call_trace ep data e s s1) as (suf1 & Ht1 & Hp1);
        [now rewrite Hc |].
      rewrite Hc in Hp1. cbn in Hp1.
      destruct (IH s1 s' Hfin) as (suf2 & Ht2 & Hret & Hhalt).
      exists (suf1 ++ suf2). rewrite Ht2, Ht1, app_assoc.
      split; [reflexivity |]. split.
      * intros Hr. rewrite panics_app, Hp1, (Hret Hr). reflexivity.
      * intros Hr. destruct (Hhalt Hr) as (pre & -> & Hpre).
        exists (suf1 ++ pre). rewrite app_assoc, panics_app, Hp1, Hpre.
        split; reflexivity.
    + destruct (call_trace ep data e s s') as (suf & Ht & Hp);
        [now rewrite Hc |].
      rewrite Hc in Hp. cbn in Hp, Hfin. exists suf.
      split; [exact Ht |]. cbn. split; [discriminate | intros _; exact Hp].
    + destruct (call_trace ep data e s s') as (suf & Ht & Hp);
        [now rewrite Hc |].
      rewrite Hc in Hp. cbn in Hp, Hfin. exists suf.
      split; [exact Ht |]. cbn. split; [discriminate | intros _; exact Hp].
    + discriminate Hfin.
Qed.

Lemma run_halts_through_panic_witness :
  exists s' pre,
    final_state
      (run [(add_overflow 1 2, 100); (missing_return, 200);
            (sub_overflow 0 0, 100)] kernel_env (site 5 false)) = Some s' /\
    trace s' = pre ++ [Panic panic] /\ panics pre = [].
Proof.
  assert (Hrun : exists s',
             final_state
               (run [(add_overflow 1 2, 100); (missing_return, 200);
                     (sub_overflow 0 0, 100)] kernel_env (site 5 false))
             = Some s').
  { eexists. vm_compute. reflexivity. }
  destruct Hrun as [s' Hs'].
  destruct (run_halts_through_panic _ kernel_env (site 5 false) s' Hs')
    as (suf & Ht & _ & Hhalt).
  destruct (Hhalt eq_refl) as (pre & Hsuf & Hpre).
  exists s', pre. split; [exact Hs' |]. rewrite Ht, Hsuf. now split.
Defined.

(** X7.  With [should_panic] set, the first line of a run is its last
    event but one: a call that returns has changed nothing at all, so a run
    that returns ends in the state it started from, and a run writes one
    line at most. *)
Theorem policy_on_one_line (calls : list (entry_point * Z)) (e : env) :
  forall s s',
    should_panic s = true ->
    final_state (run calls e s) = Some s' ->
    (returns (run calls e s) = true -> s' = s) /\
    exists extra,
      emitted (trace s') = emitted (trace s) ++ extra /\
      (length extra <= 1)%nat /\
      (extra <> [] -> returns (run calls e s) = false).
Proof.
  induction calls as [| [ep data] calls IH]; intros s s' Hpol Hfin.
  - cbn in Hfin. injection Hfin as <-. split; [reflexivity |].
    exists []. rewrite app_nil_r. cbn. repeat split; [lia | congruence].
  - rewrite run_cons in Hfin |- *.
    destruct (heap s !! data) as [d |] eqn:Hd.
    + destruct (reported (column (loc_of d))) eqn:Hr.
      * rewrite (call_set ep data d) in Hfin |- * by assumption.
        destruct (noreturn ep); [| now apply IH].
        unfold lost in *.
        destruct (primitive_returns e); cbn in Hfin |- *;
          injection Hfin as <-; (split; [discriminate |]);
          exists []; rewrite lines_log_panic, app_nil_r; cbn;
          repeat split; (lia || congruence).
      * rewrite (call_fresh ep data d) in Hfin |- * by assumption.
        rewrite Hpol, orb_true_r in Hfin |- *. unfold lost in *.
        destruct (primitive_returns e); cbn in Hfin |- *;
          injection Hfin as <-; (split; [discriminate |]);
          eexists; rewrite lines_log_panic; unfold announced;
          rewrite lines_log_emsg; (split; [reflexivity |]); cbn;
          split; (lia || reflexivity).
    + now rewrite call_null in Hfin.
Qed.

Lemma policy_on_one_line_witness :
  exists s',
    final_state
      (run [(add_overflow 1 2, 100); (sub_overflow 1 2, 100);
            (builtin_unreachable, 200)] ta_env (site 5 true)) = Some s' /\
    (length (emitted (trace s')) <= 1)%nat.
Proof.
  assert (Hrun : exists s',
             final_state
               (run [(add_overflow 1 2, 100); (sub_overflow 1 2, 100);
                     (builtin_unreachable, 200)] ta_env (site 5 true))
             = Some s').
  { eexists. vm_compute. reflexivity. }
  destruct Hrun as [s' Hs']. exists s'. split; [exact Hs' |].
  destruct (policy_on_one_line _ ta_env (site 5 true) s' eq_refl Hs')
    as (_ & extra & Hem & Hlen & _).
  rewrite Hem. cbn. exact Hlen.
Defined.

(** ** More on concurrent callers *)

(** X8.  Mark first, write after.  Under any interleaving of callers on a
    location not yet reported, as soon as a line is out, or as soon as any
    caller has an answer from [was_already_reported], the reserved bit of
    the location is set in memory. *)
Theorem mark_before_line
  (e : env) (data : Z) (d : descriptor) (s : state)
  (eps : list entry_point) (sched : list nat) :
  heap s !! data = Some d ->
  reported (column (loc_of d)) = false ->
  let sys := exec e data sched (start s eps) in
  lines sys <> emitted (trace s) \/
  (exists i t, threads sys !! i = Some t /\ observed t <> None) ->
  heap (shared sys) !! data =
  Some (set_column (Z.lor (column (loc_of d)) UBSAN_LOC_REPORTED) d).
Proof.
  intros Hd Hr sys Hsome.
  assert (Hinv : race_inv data d s (length eps) sys).
  { apply exec_race_inv; [assumption.. |]. now apply start_race_inv. }
  destruct Hinv as [_ _ Hl Hall | w tw _ Hh _ _ _].
  - exfalso. destruct Hsome as [Hne | (i & t & Hi & Hobs)].
    + now apply Hne.
    + destruct (Hall i t Hi) as [Hnone _]. now apply Hobs.
  - rewrite Hh. unfold mark, with_heap. cbn [heap]. apply lookup_insert_eq.
Qed.

Lemma mark_before_line_witness :
  heap (shared (exec ta_env 100 [0; 1; 0; 0]%nat
                  (start (site 5 false) [add_overflow 1 2; sub_overflow 3 4])))
    !! 100 =
  Some (overflow_data (a_c_10_5 (5 + 2 ^ 31)) 7).
Proof.
  apply (mark_before_line ta_env 100 (overflow_data (a_c_10_5 5) 7)
           (site 5 false) [add_overflow 1 2; sub_overflow 3 4]
           [0; 1; 0; 0]%nat eq_refl eq_refl).
  right. exists 0%nat. eexists. split; [reflexivity |]. discriminate.
Defined.

Lemma step_progress e data t s :
  (steps_left (fst (step e data t s)) <= steps_left t - 1)%nat.
Proof.
  unfold step, load_loc, atomic_cas_u32, platform_panic, leave.
  unfold steps_left at 2.
  destruct (at_pc t) as [| flag | flag c | flag | | | | |] eqn:Hat;
    try (cbn [fst]; unfold steps_left; rewrite Hat; lia).
  - cbn. lia.
  - destruct (heap s !! data); cbn; [| lia].
    destruct (negb _); cbn; [| lia].
    destruct (noreturn (handler t)); cbn; lia.
  - destruct (heap s !! data); cbn; [| lia].
    destruct (_ =? _); cbn; [lia |].
    destruct (noreturn (handler t)); cbn; lia.
  - destruct (heap s !! data); cbn; [| lia].
    destruct flag; cbn; [lia |].
    destruct (noreturn (handler t)); cbn; lia.
  - destruct (primitive_returns e); cbn; lia.
Qed.

Lemma turns_of_cons (i j : nat) (sched : list nat) :
  turns_of i (j :: sched) =
  ((if Nat.eq_dec j i then 1 else 0) + turns_of i sched)%nat.
Proof.
  unfold turns_of. rewrite filter_cons.
  destruct (decide (j = i)), (Nat.eq_dec j i); try contradiction; reflexivity.
Qed.

(** X9.  No caller ever waits for another.  Whatever the memory holds, and
    whatever the other callers do in between, a caller is nearer to its end
    by at least one step after each of its own turns; the handler it runs
    stays the same; and after five turns of its own, counted from its entry,
    it is finished, however the schedule mixes them with the others'. *)
Theorem handler_wait_free (e : env) (data : Z) (sched : list nat) :
  forall (sys : system) (i : nat) (t : thread),
    threads sys !! i = Some t ->
    exists t',
      threads (exec e data sched sys) !! i = Some t' /\
      handler t' = handler t /\
      (steps_left t' <= steps_left t - turns_of i sched)%nat /\
      ((5 <= turns_of i sched)%nat -> finished t' = true).
Proof.
  assert (Hmax : forall t, (steps_left t <= 5)%nat).
  { intros t. unfold steps_left. destruct (at_pc t); lia. }
  assert (Hfin : forall t, steps_left t = 0%nat -> finished t = true).
  { intros t. unfold steps_left, finished. now destruct (at_pc t). }
  assert (Hmain : forall sys i t,
             threads sys !! i = Some t ->
             exists t',
               threads (exec e data sched sys) !! i = Some t' /\
               handler t' = handler t /\
               (steps_left t' <= steps_left t - turns_of i sched)%nat).
  { induction sched as [| j sched IH]; intros sys i t Hi.
    - exists t. cbn. repeat split; [exact Hi | lia].
    - cbn [exec fold_left]. rewrite turns_of_cons.
      destruct (Nat.eq_dec j i) as [-> | Hne].
      + assert (Hi' : threads (turn e data sys i) !! i =
                      Some (fst (step e data t (shared sys)))).
        { unfold turn. rewrite Hi. cbn [threads].
          apply list_lookup_insert_eq. now apply lookup_lt_Some in Hi. }
        destruct (IH _ i _ Hi') as (t' & Ht' & Hh & Hs).
        exists t'. split; [exact Ht' |]. split.
        * now rewrite Hh, step_handler.
        * pose proof (step_progress e data t (shared sys)). lia.
      + assert (Hi' : threads (turn e data sys j) !! i = Some t).
        { unfold turn. destruct (threads sys !! j); [| exact Hi].
          cbn [threads]. now rewrite list_lookup_insert_ne. }
        destruct (IH _ i _ Hi') as (t' & Ht' & Hh & Hs).
        exists t'. repeat split; [exact Ht' | exact Hh | lia]. }
  intros sys i t Hi. destruct (Hmain sys i t Hi) as (t' & Ht' & Hh & Hs).
  exists t'. repeat split; try assumption.
  intros H5. apply Hfin. specialize (Hmax t). lia.
Qed.

Lemma handler_wait_free_witness :
  exists t',
    threads (exec ta_env 100 [1; 0; 1; 1; 0; 1; 0; 1; 0; 0]%nat
               (start (site 5 true) [add_overflow 1 2; sub_overflow 3 4]))
      !! 0%nat = Some t' /\
    finished t' = true.
Proof.
  destruct (handler_wait_free ta_env 100 [1; 0; 1; 1; 0; 1; 0; 1; 0; 0]%nat
              (start (site 5 true) [add_overflow 1 2; sub_overflow 3 4])
              0%nat _ eq_refl)
    as (t' & Ht' & _ & _ & Hdone).
  exists t'. split; [exact Ht' |]. apply Hdone. vm_compute. lia.
Defined.

(** ** Concurrent deduplication *)

Lemma halted_count_insert (l : list thread) :
  forall i t t',
    l !! i = Some t ->
    (halted_count (<[i := t']> l) + (if halted t then 1 else 0) =
     halted_count l + (if halted t' then 1 else 0))%nat.
Proof.
  induction l as [| x l IH]; intros [| i] t t' Hi; try discriminate Hi.
  - injection Hi as ->.
    change (<[0%nat := t']> (t :: l)) with (t' :: l).
    cbn [halted_count]. lia.
  - specialize (IH i t t' Hi).
    change (<[S i := t']> (x :: l)) with (x :: <[i := t']> l).
    cbn [halted_count]. lia.
Qed.

Lemma halted_count_start (eps : list entry_point) :
  halted_count
    (map (fun ep => {| handler := ep; at_pc := Entry; observed := None |}) eps)
  = 0%nat.
Proof. induction eps as [| ep eps IH]; [reflexivity | exact IH]. Qed.

(** A step keeps a caller on track, leaves [should_panic] alone, and calls
    the panic primitive exactly when the caller passes into [ubsan_panic]
    for good. *)
Lemma step_on_track e data s0 t s :
  should_panic s = should_panic s0 ->
  on_track e s0 t ->
  should_panic (snd (step e data t s)) = should_panic s0 /\
  on_track e s0 (fst (step e data t s)) /\
  (length (panics (trace (snd (step e data t s))))
   + (if halted t then 1 else 0) =
   length (panics (trace s))
   + (if halted (fst (step e data t s)) then 1 else 0))%nat.
Proof.
  intros Hpol Ht. pose proof Ht as Ht0. unfold on_track in Ht.
  unfold halted at 1.
  destruct (at_pc t) as [| f | f c | f | | | | |] eqn:Hat.
  - rewrite step_entry by assumption. cbn [fst snd].
    unfold on_track, halted, flag_of. cbn [move at_pc handler].
    rewrite Hpol. repeat split; reflexivity.
  - destruct (heap s !! data) as [d |] eqn:Hd.
    + destruct (reported (column (loc_of d))) eqn:Hr.
      * rewrite (step_load_set e data t s f d) by assumption. cbn [fst snd].
        unfold on_track, halted, leave. cbn [move at_pc handler observed].
        destruct (noreturn (handler t)); repeat split;
          (exact Hpol || discriminate || reflexivity).
      * rewrite (step_load_fresh e data t s f d) by assumption.
        cbn [fst snd]. unfold on_track, halted. cbn [move at_pc handler].
        repeat split; (exact Hpol || exact Ht || reflexivity).
    + rewrite (step_load_null e data t s f) by assumption. cbn [fst snd].
      unfold on_track, halted. cbn [move at_pc].
      repeat split; (exact Hpol || reflexivity).
  - destruct (heap s !! data) as [d |] eqn:Hd.
    + destruct (Z.eq_dec (column (loc_of d)) c) as [<- | Hne].
      * rewrite (step_cas_won e data t s f d) by assumption. cbn [fst snd].
        unfold on_track, halted. cbn [move at_pc handler].
        repeat split; (exact Hpol || exact Ht || reflexivity).
      * rewrite (step_cas_lost e data t s f c d) by assumption.
        cbn [fst snd].
        unfold on_track, halted, leave. cbn [move at_pc handler observed].
        destruct (noreturn (handler t)); repeat split;
          (exact Hpol || discriminate || reflexivity).
    + rewrite (step_cas_null e data t s f c) by assumption. cbn [fst snd].
      unfold on_track, halted. cbn [move at_pc].
      repeat split; (exact Hpol || reflexivity).
  - destruct (heap s !! data) as [d |] eqn:Hd.
    + rewrite (step_emit e data t s f d) by assumption. cbn [fst snd].
      split; [exact Hpol |]. split.
      * unfold on_track, leave. cbn [move at_pc handler observed].
        subst f. unfold flag_of.
        destruct (noreturn (handler t)), (should_panic s0); cbn;
          intros _; reflexivity.
      * cbn [log trace]. rewrite panics_app. cbn [panics].
        rewrite app_nil_r. unfold halted, leave. cbn [move at_pc].
        destruct f, (noreturn (handler t)); reflexivity.
    + rewrite (step_emit_null e data t s f) by assumption. cbn [fst snd].
      unfold on_track, halted. cbn [move at_pc].
      repeat split; (exact Hpol || reflexivity).
  - rewrite step_call_panic by assumption. cbn [fst snd].
    split; [exact Hpol |]. split.
    + unfold on_track. cbn [move at_pc handler observed].
      destruct (primitive_returns e) eqn:Hprim; split;
        (reflexivity || exact Ht).
    + cbn [log trace]. rewrite panics_app, length_app. cbn [panics length].
      unfold halted. cbn [move at_pc].
      destruct (primitive_returns e); lia.
  - rewrite step_finished by (unfold finished; now rewrite Hat).
    cbn [fst snd]. unfold halted. rewrite Hat. now repeat split.
  - rewrite step_finished by (unfold finished; now rewrite Hat).
    cbn [fst snd]. unfold halted. rewrite Hat. now repeat split.
  - rewrite step_finished by (unfold finished; now rewrite Hat).
    cbn [fst snd]. unfold halted. rewrite Hat. now repeat split.
  - rewrite step_finished by (unfold finished; now rewrite Hat).
    cbn [fst snd]. unfold halted. rewrite Hat. now repeat split.
Qed.

Lemma turn_on_track e data s0 sys i :
  should_panic (shared sys) = should_panic s0 /\
  Forall (on_track e s0) (threads sys) /\
  length (panics (trace (shared sys))) =
    (length (panics (trace s0)) + halted_count (threads sys))%nat ->
  should_panic (shared (turn e data sys i)) = should_panic s0 /\
  Forall (on_track e s0) (threads (turn e data sys i)) /\
  length (panics (trace (shared (turn e data sys i)))) =
    (length (panics (trace s0)) + halted_count (threads (turn e data sys i)))%nat.
Proof.
  intros (Hpol & Hall & Hcount). unfold turn.
  destruct (threads sys !! i) as [t |] eqn:Hi; [| now repeat split].
  cbn [shared threads].
  destruct (step_on_track e data s0 t (shared sys) Hpol
              (Forall_lookup_1 _ _ _ _ Hall Hi)) as (Hpol' & Ht' & Hc').
  split; [exact Hpol' |]. split; [now apply Forall_insert |].
  pose proof (halted_count_insert (threads sys) i t
                (fst (step e data t (shared sys))) Hi) as Hins.
  lia.
Qed.

Lemma exec_on_track e data s0 sched :
  forall sys,
    should_panic (shared sys) = should_panic s0 /\
    Forall (on_track e s0) (threads sys) /\
    length (panics (trace (shared sys))) =
      (length (panics (trace s0)) + halted_count (threads sys))%nat ->
    should_panic (shared (exec e data sched sys)) = should_panic s0 /\
    Forall (on_track e s0) (threads (exec e data sched sys)) /\
    length (panics (trace (shared (exec e data sched sys)))) =
      (length (panics (trace s0))
       + halted_count (threads (exec e data sched sys)))%nat.
Proof.
  induction sched as [| i sched IH]; intros sys Hsys; [exact Hsys |].
  cbn [exec fold_left]. apply IH. now apply turn_on_track.
Qed.

Lemma start_on_track e (s0 : state) (eps : list entry_point) :
  should_panic (shared (start s0 eps)) = should_panic s0 /\
  Forall (on_track e s0) (threads (start s0 eps)) /\
  length (panics (trace (shared (start s0 eps)))) =
    (length (panics (trace s0)) + halted_count (threads (start s0 eps)))%nat.
Proof.
  unfold start. cbn [shared threads]. split; [reflexivity |]. split.
  - apply Forall_forall. intros t Ht.
    apply list_elem_of_In, in_map_iff in Ht as (ep & <- & _). exact I.
  - rewrite halted_count_start. lia.
Qed.

(** Every turn of its own brings a caller nearer to its end, whatever the
    others do. *)
Lemma exec_progress e data sched :
  forall (sys : system) (i : nat) (t : thread),
    threads sys !! i = Some t ->
    exists t',
      threads (exec e data sched sys) !! i = Some t' /\
      (steps_left t' <= steps_left t - turns_of i sched)%nat.
Proof.
  induction sched as [| j sched IH]; intros sys i t Hi.
  - exists t. cbn. split; [exact Hi | lia].
  - cbn [exec fold_left]. rewrite turns_of_cons.
    destruct (Nat.eq_dec j i) as [-> | Hne].
    + assert (Hi' : threads (turn e data sys i) !! i =
                    Some (fst (step e data t (shared sys)))).
      { unfold turn. rewrite Hi. cbn [threads].
        apply list_lookup_insert_eq. now apply lookup_lt_Some in Hi. }
      destruct (IH _ i _ Hi') as (t' & Ht' & Hs).
      exists t'. split; [exact Ht' |].
      pose proof (step_progress e data t (shared sys)). lia.
    + assert (Hi' : threads (turn e data sys j) !! i = Some t).
      { unfold turn. destruct (threads sys !! j); [| exact Hi].
        cbn [threads]. now rewrite list_lookup_insert_ne. }
      destruct (IH _ i _ Hi') as (t' & Ht' & Hs).
      exists t'. split; [exact Ht' | lia].
Qed.

(** C4.  Any number of callers run handlers on one descriptor whose
    location is not yet reported, under any interleaving of their steps.
    A caller's steps are those of its handler: alone, a caller ends as
    [call] says.  At every moment at most one caller has the answer "not
    yet reported", at most one line is out, and the column is the original
    word or that word with the reserved bit; every change of the memory is
    the effect of one successful [atomic_cas_u32] on the column word; and
    the panic primitive has been called once for each caller that is in
    [ubsan_panic] for good.  Five turns for each caller are enough to
    finish them all.  When every caller is finished (and there is at least
    one), exactly one of them has the answer "not yet reported": its line
    is the one line written, and it has gone on to the halt exactly when
    its handler never returns or [should_panic] is set, and is back in its
    caller otherwise; each of the others has the answer "already reported",
    has written nothing, and is back in its caller, or, if its handler
    never returns, in [ubsan_panic]. *)
Theorem concurrent_dedup
  (e : env) (data : Z) (d : descriptor) (s : state)
  (eps : list entry_point) (sched : list nat) :
  heap s !! data = Some d ->
  reported (column (loc_of d)) = false ->
  let sys := exec e data sched (start s eps) in
  (forall ep s1,
     outcome_of (exec e data [0; 0; 0; 0; 0]%nat (start s1 [ep])) =
     Some (call ep data e s1)) /\
  map handler (threads sys) = eps /\
  (forall i j ti tj,
     threads sys !! i = Some ti -> threads sys !! j = Some tj ->
     observed ti = Some false -> observed tj = Some false -> i = j) /\
  (lines sys = emitted (trace s) \/
   exists text, lines sys = emitted (trace s) ++ [text]) /\
  (heap (shared sys) = heap s \/
   heap (shared sys) =
   <[data := set_column (Z.lor (column (loc_of d)) UBSAN_LOC_REPORTED) d]>
     (heap s)) /\
  (forall t s1,
     heap (snd (step e data t s1)) <> heap s1 ->
     exists flag c,
       at_pc t = Cas flag c /\
       atomic_cas_u32 data c (Z.lor c UBSAN_LOC_REPORTED) e s1 =
       Returned (true, c) (snd (step e data t s1))) /\
  length (panics (trace (shared sys))) =
    (length (panics (trace s)) + halted_count (threads sys))%nat /\
  ((forall i, (i < length eps)%nat -> (5 <= turns_of i sched)%nat) ->
   Forall (fun t => finished t = true) (threads sys)) /\
  (eps <> [] ->
   Forall (fun t => finished t = true) (threads sys) ->
   exists w tw,
     threads sys !! w = Some tw /\
     observed tw = Some false /\
     lines sys = emitted (trace s) ++ [line_of d tw] /\
     at_pc tw =
       (if noreturn (handler tw) || should_panic s
        then if primitive_returns e then Idle else Gone
        else Back) /\
     forall j tj,
       j <> w -> threads sys !! j = Some tj ->
       observed tj = Some true /\
       (noreturn (handler tj) = false -> at_pc tj = Back) /\
       at_pc tj =
         (if noreturn (handler tj)
          then if primitive_returns e then Idle else Gone
          else Back)).
Proof.
  intros Hd Hr sys.
  assert (Hinv : race_inv data d s (length eps) sys).
  { apply exec_race_inv; [assumption.. |]. now apply start_race_inv. }
  destruct (exec_on_track e data s sched (start s eps)
              (start_on_track e s eps)) as (_ & Htrack & Hpanics).
  fold sys in Htrack, Hpanics.
  split; [intros ep s1; apply solo_refines_call |].
  split.
  { unfold sys. rewrite exec_handlers. unfold start. cbn [threads].
    rewrite map_map. cbn [handler]. apply map_id. }
  split; [| split; [| split; [| split; [| split; [| split]]]]].
  - intros i j ti tj Hi Hj Hoi Hoj.
    destruct Hinv as [_ _ _ Hall | w tw _ _ Hw _ Hothers].
    + destruct (Hall i ti Hi) as [Hnone _]. congruence.
    + assert (Hone : forall k tk, threads sys !! k = Some tk ->
                                  observed tk = Some false -> k = w).
      { intros k tk Hk Hok. destruct (Nat.eq_dec k w) as [| Hne]; [assumption |].
        destruct (Hothers k tk Hne Hk) as [[Hx _] | [Hx _]]; congruence. }
      rewrite (Hone i ti Hi Hoi), (Hone j tj Hj Hoj). reflexivity.
  - destruct Hinv as [_ _ Hl _ | w tw _ _ _ [[_ Hl] | [_ Hl]] _].
    + now left.
    + now left.
    + right. now exists (line_of d tw).
  - destruct Hinv as [_ Hh _ _ | w tw _ Hh _ _ _]; [now left | now right].
  - intros t s1. apply step_writes_by_cas.
  - exact Hpanics.
  - intros Hfair. apply Forall_lookup_2. intros i t' Hi.
    assert (Hlt : (i < length eps)%nat).
    { apply lookup_lt_Some in Hi.
      replace (length eps) with (length (threads sys)); [exact Hi |].
      destruct Hinv; assumption. }
    assert (Hstart : threads (start s eps) !! i =
                     Some {| handler := nth i eps invalid_builtin;
                             at_pc := Entry; observed := None |}).
    { unfold start. cbn [threads].
      change (map ?f eps) with (f <$> eps). rewrite list_lookup_fmap.
      destruct (lookup_lt_is_Some_2 eps i Hlt) as [ep Hep]. rewrite Hep.
      cbn. now rewrite (nth_lookup_Some _ _ _ _ Hep). }
    destruct (exec_progress e data sched _ i _ Hstart) as (t1 & Ht1 & Hsteps).
    fold sys in Ht1. rewrite Hi in Ht1. injection Ht1 as <-.
    specialize (Hfair i Hlt). cbn [steps_left at_pc] in Hsteps.
    unfold steps_left in Hsteps. unfold finished.
    destruct (at_pc t'); (reflexivity || lia).
  - intros Hne Hfin.
    destruct Hinv as [Hlen _ _ Hall | w tw _ _ Hw Hline Hothers].
    + exfalso. destruct eps as [| ep eps']; [congruence |].
      destruct (threads sys) as [| t0 ts] eqn:Hts; [discriminate Hlen |].
      destruct (Hall 0%nat t0) as [_ Hpc]; [reflexivity |].
      apply Forall_inv in Hfin. unfold finished in Hfin.
      destruct (at_pc t0); (discriminate || contradiction).
    + exists w, tw. split; [exact Hw |].
      pose proof (Forall_lookup_1 _ _ _ _ Hfin Hw) as Hfw. cbn beta in Hfw.
      pose proof (Forall_lookup_1 _ _ _ _ Htrack Hw) as Htw.
      destruct Hline as [[[_ [flag Hat]] _] | [[Hobs Hafter] Hl]].
      { unfold finished in Hfw. rewrite Hat in Hfw. discriminate. }
      split; [exact Hobs |]. split; [exact Hl |]. split.
      { unfold finished in Hfw. unfold on_track in Htw.
        destruct (at_pc tw); try discriminate Hfw; try contradiction.
        - destruct Htw as [Hp Hh]. now rewrite (Hh Hobs), Hp.
        - destruct Htw as [Hp Hh]. now rewrite (Hh Hobs), Hp.
        - now rewrite (Htw Hobs). }
      intros j tj Hj Hlook.
      pose proof (Forall_lookup_1 _ _ _ _ Hfin Hlook) as Hfj. cbn beta in Hfj.
      pose proof (Forall_lookup_1 _ _ _ _ Htrack Hlook) as Htj.
      unfold finished in Hfj. unfold on_track in Htj.
      destruct (Hothers j tj Hj Hlook) as [[_ Hpc] | [Hobs' Hpc]].
      * destruct (at_pc tj); (discriminate || contradiction).
      * split; [exact Hobs' |].
        destruct (at_pc tj); try discriminate Hfj; try contradiction.
        -- destruct Htj as [Hp _]. rewrite Hpc, Hp. split; [congruence | reflexivity].
        -- destruct Htj as [Hp _]. rewrite Hpc, Hp. split; [congruence | reflexivity].
        -- rewrite Hpc. split; reflexivity.
Qed.

Lemma concurrent_dedup_witness :
  exists w tw,
    threads (exec ta_env 100
               [0; 1; 2; 1; 0; 2; 2; 0; 1; 2; 2; 0; 0; 1; 1]%nat
               (start (site 5 true)
                  [add_overflow 1 2; sub_overflow 3 4; add_overflow 5 6]))
      !! w = Some tw /\
    observed tw = Some false /\
    at_pc tw = Idle /\
    lines (exec ta_env 100
             [0; 1; 2; 1; 0; 2; 2; 0; 1; 2; 2; 0; 0; 1; 1]%nat
             (start (site 5 true)
                [add_overflow 1 2; sub_overflow 3 4; add_overflow 5 6])) =
    [line_of (overflow_data (a_c_10_5 5) 7) tw].
Proof.
  destruct (concurrent_dedup ta_env 100 (overflow_data (a_c_10_5 5) 7)
              (site 5 true)
              [add_overflow 1 2; sub_overflow 3 4; add_overflow 5 6]
              [0; 1; 2; 1; 0; 2; 2; 0; 1; 2; 2; 0; 0; 1; 1]%nat
              eq_refl eq_refl)
    as (_ & _ & _ & _ & _ & _ & _ & Hfair & Hdone).
  assert (Hturns : forall i : nat,
             (i < 3)%nat ->
             (5 <= turns_of i
                     [0; 1; 2; 1; 0; 2; 2; 0; 1; 2; 2; 0; 0; 1; 1])%nat).
  { intros i Hi. destruct i as [| [| [| i]]]; [vm_compute; lia.. | lia]. }
  destruct (Hdone ltac:(discriminate) (Hfair Hturns))
    as (w & tw & Hw & Hobs & Hl & Hpc & _).
  exists w, tw. split; [exact Hw |]. split; [exact Hobs |].
  split; [| exact Hl].
  rewrite Hpc. cbn [site should_panic ta_env primitive_returns].
  now rewrite orb_true_r.
Defined.

(** * Properties of the memory layout *)

(** ** Rounding *)

Lemma ALIGN_div (k x : Z) :
  0 <= k -> ALIGN x (2 ^ k) = ((x + 2 ^ k - 1) / 2 ^ k) * 2 ^ k.
Proof.
  intros Hk. unfold ALIGN.
  replace (2 ^ k - 1) with (Z.ones k)
    by (rewrite Z.ones_equiv; unfold Z.pred; ring).
  rewrite <- Z.ldiff_land, Z.ldiff_ones_r by exact Hk.
  rewrite Z.shiftl_mul_pow2, Z.shiftr_div_pow2 by exact Hk. reflexivity.
Qed.

Lemma ALIGN_spec (k x : Z) :
  0 <= k ->
  ALIGN x (2 ^ k) mod 2 ^ k = 0 /\ x <= ALIGN x (2 ^ k) < x + 2 ^ k.
Proof.
  intros Hk. rewrite ALIGN_div by exact Hk.
  assert (Hp : 0 < 2 ^ k) by (apply Z.pow_pos_nonneg; lia).
  split; [apply Z.mod_mul; lia |].
  pose proof (Z.div_mod (x + 2 ^ k - 1) (2 ^ k) ltac:(lia)) as Hdm.
  pose proof (Z.mod_pos_bound (x + 2 ^ k - 1) (2 ^ k) Hp) as Hb.
  lia.
Qed.

Lemma ALIGN_aligned (k x : Z) :
  0 <= k -> x mod 2 ^ k = 0 -> ALIGN x (2 ^ k) = x.
Proof.
  intros Hk Hx. destruct (ALIGN_spec k x Hk) as [Hm Hb].
  assert (Hp : 0 < 2 ^ k) by (apply Z.pow_pos_nonneg; lia).
  apply Z.mod_divide in Hm; [| lia]. apply Z.mod_divide in Hx; [| lia].
  destruct Hm as [m Hm]. destruct Hx as [n Hn].
  generalize dependent (ALIGN x (2 ^ k)). intros y Hb Hm.
  generalize dependent (2 ^ k). intros P Hb HP Hm Hn. subst x y.
  assert (m = n) by nia. now subst.
Qed.

Lemma mod_sub_0 (a b P : Z) :
  0 < P -> a mod P = 0 -> b mod P = 0 -> (a - b) mod P = 0.
Proof.
  intros HP Ha Hb. apply Z.mod_divide in Ha; [| lia].
  apply Z.mod_divide in Hb; [| lia]. apply Z.mod_divide; [lia |].
  now apply Z.divide_sub_r.
Qed.

Lemma rounddown_basic (x y : Z) :
  0 < y ->
  (x - x mod y) mod y = 0 /\ x - x mod y <= x < x - x mod y + y /\
  x - x mod y = (x / y) * y.
Proof.
  intros Hy.
  pose proof (Z.div_mod x y ltac:(lia)) as Hdm.
  pose proof (Z.mod_pos_bound x y Hy) as Hb.
  assert (Heq : x - x mod y = (x / y) * y) by lia.
  split; [rewrite Heq; apply Z.mod_mul; lia |]. split; [lia | exact Heq].
Qed.

Lemma ld_word_small (x : Z) : 0 <= x < 2 ^ 64 -> ld_word x = x.
Proof. intros Hx. unfold ld_word. now apply Z.mod_small. Qed.

Lemma ld_signed_small (x : Z) : 0 <= x < 2 ^ 63 -> ld_signed x = x.
Proof.
  intros Hx. unfold ld_signed. rewrite ld_word_small by lia.
  destruct (Z.ltb_spec x (2 ^ 63)); [reflexivity | lia].
Qed.

Lemma ld_div_small (x y : Z) :
  0 <= x < 2 ^ 63 -> 0 < y < 2 ^ 63 -> ld_div x y = x / y.
Proof.
  intros Hx Hy. unfold ld_div. rewrite !ld_signed_small by lia.
  rewrite Z.quot_div_nonneg by lia. apply ld_word_small.
  pose proof (Z.div_pos x y ltac:(lia) ltac:(lia)).
  assert (x / y <= x) by (apply Z.div_le_upper_bound; nia).
  lia.
Qed.

Lemma ld_rem_small (x y : Z) :
  0 <= x < 2 ^ 63 -> 0 < y < 2 ^ 63 -> ld_rem x y = x mod y.
Proof.
  intros Hx Hy. unfold ld_rem. rewrite !ld_signed_small by lia.
  rewrite Z.rem_mod_nonneg by lia. apply ld_word_small.
  pose proof (Z.mod_pos_bound x y ltac:(lia)). lia.
Qed.

(** X10.  For addresses below 2^63, [LD_ROUNDDOWN(x, y)] is the greatest
    multiple of [y] that is not above [x]: it is a multiple of [y], lies in
    [(x - y, x]], no multiple of [y] lies between it and [x]; it is [x]
    itself exactly when [x] is a multiple of [y]; rounding twice is
    rounding once; it is the [(x / y) * y] the script writes out for
    [__asan_map_start]; and it is what the linker computes on 64-bit words,
    whether it takes [%] on signed operands (GNU ld) or on unsigned ones
    (ld.lld). *)
Theorem LD_ROUNDDOWN_greatest_multiple (x y : Z) :
  0 <= x < 2 ^ 63 ->
  0 < y < 2 ^ 63 ->
  LD_ROUNDDOWN x y mod y = 0 /\
  0 <= LD_ROUNDDOWN x y <= x /\
  x < LD_ROUNDDOWN x y + y /\
  (forall m, m mod y = 0 -> m <= x -> m <= LD_ROUNDDOWN x y) /\
  (LD_ROUNDDOWN x y = x <-> x mod y = 0) /\
  LD_ROUNDDOWN (LD_ROUNDDOWN x y) y = LD_ROUNDDOWN x y /\
  LD_ROUNDDOWN x y = (x / y) * y /\
  LD_ROUNDDOWN x y = ld_word (x - ld_rem x y) /\
  LD_ROUNDDOWN x y = ld_word (x - ld_word x mod ld_word y) /\
  ld_div x y * y = LD_ROUNDDOWN x y.
Proof.
  intros Hx Hy. rewrite ld_rem_small, ld_div_small by assumption.
  rewrite (ld_word_small x), (ld_word_small y) by lia.
  unfold LD_ROUNDDOWN.
  destruct (rounddown_basic x y ltac:(lia)) as (Hm & Hb & Heq).
  pose proof (Z.mod_pos_bound x y ltac:(lia)) as Hmb.
  assert (Hnn : 0 <= x - x mod y).
  { rewrite Heq. apply Z.mul_nonneg_nonneg; [apply Z.div_pos |]; lia. }
  split; [exact Hm |]. split; [lia |]. split; [lia |]. split.
  { intros m Hm0 Hle. apply Z.mod_divide in Hm0; [| lia].
    destruct Hm0 as [q ->]. rewrite Heq.
    assert (q <= x / y); [| nia].
    apply Z.div_le_lower_bound; lia. }
  split; [lia |]. split; [rewrite Hm; lia |]. split; [exact Heq |].
  rewrite ld_word_small by lia. repeat split; lia.
Qed.

Lemma LD_ROUNDDOWN_greatest_multiple_witness :
  LD_ROUNDDOWN 0xde041238 0x1000 = 0xde041000 /\
  LD_ROUNDDOWN 0xde041238 0x1000 mod 0x1000 = 0.
Proof.
  split; [reflexivity |].
  apply (LD_ROUNDDOWN_greatest_multiple 0xde041238 0x1000); lia.
Defined.

(** ** The regions of the flat map *)

(** X11.  The executable region starts on a page, at or below the load
    address and less than a page below it; and when the script's own
    assertion holds ([TEE_LOAD_ADDR & (SMALL_PAGE_SIZE - 1)] is zero) it
    starts at the load address itself, so nothing in front of the text is
    mapped with it. *)
Theorem flatmap_rx_start_load_addr (c : ld_config) (k : Z) :
  0 <= k ->
  SMALL_PAGE_SIZE c = 2 ^ k ->
  0 <= TEE_LOAD_ADDR c ->
  __flatmap_rx_start c mod SMALL_PAGE_SIZE c = 0 /\
  __flatmap_rx_start c <= __text_start c
    < __flatmap_rx_start c + SMALL_PAGE_SIZE c /\
  (Z.land (TEE_LOAD_ADDR c) (SMALL_PAGE_SIZE c - 1) = 0 ->
   __flatmap_rx_start c = TEE_LOAD_ADDR c).
Proof.
  intros Hk HP Hload. unfold __flatmap_rx_start, __text_start, LD_ROUNDDOWN.
  assert (Hpos : 0 < SMALL_PAGE_SIZE c)
    by (rewrite HP; apply Z.pow_pos_nonneg; lia).
  destruct (rounddown_basic (TEE_LOAD_ADDR c) (SMALL_PAGE_SIZE c) Hpos)
    as (Hm & Hb & _).
  split; [exact Hm |]. split; [exact Hb |].
  intros Hassert. rewrite HP in Hassert |- *.
  replace (2 ^ k - 1) with (Z.ones k) in Hassert
    by (rewrite Z.ones_equiv; unfold Z.pred; ring).
  rewrite Z.land_ones in Hassert by exact Hk. lia.
Qed.

Lemma flatmap_rx_start_load_addr_witness :
  __flatmap_rx_start a_build = 0xde000000.
Proof.
  apply (flatmap_rx_start_load_addr a_build 12); try reflexivity; cbn; lia.
Defined.

Lemma flatmap_rx_start_load_addr_aux (c : ld_config) (k : Z) :
  0 <= k ->
  SMALL_PAGE_SIZE c = 2 ^ k ->
  0 <= TEE_LOAD_ADDR c ->
  __flatmap_rx_start c <= __text_start c /\
  __flatmap_rx_start c mod SMALL_PAGE_SIZE c = 0.
Proof.
  intros Hk HP Hload. unfold __flatmap_rx_start, __text_start, LD_ROUNDDOWN.
  assert (Hpos : 0 < SMALL_PAGE_SIZE c)
    by (rewrite HP; apply Z.pow_pos_nonneg; lia).
  destruct (rounddown_basic (TEE_LOAD_ADDR c) (SMALL_PAGE_SIZE c) Hpos)
    as (Hm & Hb & _).
  split; [lia | exact Hm].
Qed.

(** X12.  The regions the core maps are laid end to end from the start of
    the executable region to the end of the core's RAM.  Provided the
    location counter only moves forward through the sections and the
    script's assertion on the end of RAM holds: no size is negative; with
    [CFG_CORE_RODATA_NOEXEC] the executable region ends where the read-only
    one starts and that one ends where the read-write one starts; without
    it the executable region runs up to the read-write one and the
    read-only region is empty; the read-write region ends where the free
    one starts, and the free one ends at [_end_of_ram]. *)
Theorem vcore_regions_tile (c : ld_config) (o : ld_sections) (k : Z) :
  0 <= k ->
  SMALL_PAGE_SIZE c = 2 ^ k ->
  0 <= TEE_LOAD_ADDR c ->
  TEE_LOAD_ADDR c <= text_end o ->
  __flatmap_ro_start c o <= dtors_end o ->
  __flatmap_rw_start c o <= nozi_end o ->
  __flatmap_free_start c o <= _end_of_ram c ->
  0 <= __vcore_unpg_rx_size c o /\
  0 <= __vcore_unpg_ro_size c o /\
  0 <= __vcore_unpg_rw_size c o /\
  0 <= __vcore_free_size c o /\
  (if CFG_CORE_RODATA_NOEXEC c
   then __vcore_unpg_rx_end c o = __vcore_unpg_ro_start c o /\
        __vcore_unpg_ro_end c o = __vcore_unpg_rw_start c o
   else __vcore_unpg_rx_end c o = __vcore_unpg_rw_start c o /\
        __vcore_unpg_ro_end c o = __vcore_unpg_ro_start c o) /\
  __vcore_unpg_rw_end c o = __vcore_free_start c o /\
  __vcore_free_end c o = _end_of_ram c /\
  __vcore_unpg_rx_size c o + __vcore_unpg_ro_size c o
  + __vcore_unpg_rw_size c o + __vcore_free_size c o =
  _end_of_ram c - __vcore_unpg_rx_start c.
Proof.
  intros Hk HP Hload Htext Hro Hrw Hfree.
  destruct (flatmap_rx_start_load_addr_aux c k Hk HP Hload) as [Hrx _].
  unfold __vcore_unpg_rx_end, __vcore_unpg_ro_end, __vcore_unpg_rw_end,
    __vcore_free_end.
  unfold __vcore_unpg_rx_size, __vcore_unpg_ro_size, __vcore_unpg_rw_size,
    __vcore_free_size, __vcore_unpg_rx_start, __vcore_unpg_ro_start,
    __vcore_unpg_rw_start, __vcore_free_start.
  unfold __flatmap_rx_size, __flatmap_ro_size, __flatmap_rw_size,
    __flatmap_free_size.
  assert (Hro_ge : text_end o <= __flatmap_ro_start c o).
  { unfold __flatmap_ro_start. destruct (CFG_CORE_RODATA_NOEXEC c); [| lia].
    rewrite HP. apply (ALIGN_spec k (text_end o) Hk). }
  assert (Hrw_ge : dtors_end o <= __flatmap_rw_start c o).
  { unfold __flatmap_rw_start. destruct (CFG_CORE_RWDATA_NOEXEC c); [| lia].
    rewrite HP. apply (ALIGN_spec k (dtors_end o) Hk). }
  assert (Hfree_ge : nozi_end o <= __flatmap_free_start c o).
  { unfold __flatmap_free_start. rewrite HP.
    apply (ALIGN_spec k (nozi_end o) Hk). }
  unfold __text_start in Hrx.
  destruct (CFG_CORE_RODATA_NOEXEC c); repeat split; lia.
Qed.

Lemma vcore_regions_tile_witness :
  __vcore_unpg_rx_end a_build a_link = 0xde042000 /\
  __vcore_unpg_rx_end a_build a_link = __vcore_unpg_ro_start a_build a_link /\
  __vcore_free_end a_build a_link = 0xde200000.
Proof.
  destruct (vcore_regions_tile a_build a_link 12) as (_ & _ & _ & _ & H & _ & Hf & _);
    try reflexivity; try (vm_compute; discriminate).
  cbn [a_build CFG_CORE_RODATA_NOEXEC] in H. destruct H as [Hrx _].
  split; [reflexivity |]. split; [exact Hrx | exact Hf].
Defined.

(** X13.  The boundaries the MMU needs are on pages.  The executable
    region starts on a page and the free region starts on a page in every
    build; with [CFG_CORE_RODATA_NOEXEC] the read-only region starts on a
    page and the executable region is a whole number of pages; with
    [CFG_CORE_RWDATA_NOEXEC] the read-write region starts on a page and is
    a whole number of pages; with both, so is the read-only region. *)
Theorem vcore_boundaries_on_pages (c : ld_config) (o : ld_sections) (k : Z) :
  0 <= k ->
  SMALL_PAGE_SIZE c = 2 ^ k ->
  0 <= TEE_LOAD_ADDR c ->
  __vcore_unpg_rx_start c mod SMALL_PAGE_SIZE c = 0 /\
  __vcore_free_start c o mod SMALL_PAGE_SIZE c = 0 /\
  (CFG_CORE_RODATA_NOEXEC c = true ->
   __vcore_unpg_ro_start c o mod SMALL_PAGE_SIZE c = 0 /\
   __vcore_unpg_rx_size c o mod SMALL_PAGE_SIZE c = 0) /\
  (CFG_CORE_RWDATA_NOEXEC c = true ->
   __vcore_unpg_rw_start c o mod SMALL_PAGE_SIZE c = 0 /\
   __vcore_unpg_rw_size c o mod SMALL_PAGE_SIZE c = 0) /\
  (CFG_CORE_RODATA_NOEXEC c = true ->
   CFG_CORE_RWDATA_NOEXEC c = true ->
   __vcore_unpg_ro_size c o mod SMALL_PAGE_SIZE c = 0).
Proof.
  intros Hk HP Hload.
  assert (Hpos : 0 < SMALL_PAGE_SIZE c)
    by (rewrite HP; apply Z.pow_pos_nonneg; lia).
  destruct (flatmap_rx_start_load_addr_aux c k Hk HP Hload) as [_ Hrx].
  assert (Hfree : __flatmap_free_start c o mod SMALL_PAGE_SIZE c = 0).
  { unfold __flatmap_free_start. rewrite HP.
    apply (ALIGN_spec k (nozi_end o) Hk). }
  assert (Hro : CFG_CORE_RODATA_NOEXEC c = true ->
                __flatmap_ro_start c o mod SMALL_PAGE_SIZE c = 0).
  { intros Hf. unfold __flatmap_ro_start. rewrite Hf, HP.
    apply (ALIGN_spec k (text_end o) Hk). }
  assert (Hrw : CFG_CORE_RWDATA_NOEXEC c = true ->
                __flatmap_rw_start c o mod SMALL_PAGE_SIZE c = 0).
  { intros Hf. unfold __flatmap_rw_start. rewrite Hf, HP.
    apply (ALIGN_spec k (dtors_end o) Hk). }
  unfold __vcore_unpg_rx_start, __vcore_free_start, __vcore_unpg_ro_start,
    __vcore_unpg_rw_start, __vcore_unpg_rx_size, __vcore_unpg_rw_size,
    __vcore_unpg_ro_size.
  split; [exact Hrx |]. split; [exact Hfree |]. split; [| split].
  - intros Hf. split; [now apply Hro |]. rewrite Hf.
    unfold __flatmap_rx_size. apply mod_sub_0; auto.
  - intros Hf. split; [now apply Hrw |].
    unfold __flatmap_rw_size. apply mod_sub_0; auto.
  - intros Hf1 Hf2. rewrite Hf1.
    unfold __flatmap_ro_size. apply mod_sub_0; auto.
Qed.

Lemma vcore_boundaries_on_pages_witness :
  __vcore_unpg_ro_start a_build a_link mod 0x1000 = 0 /\
  __vcore_unpg_rw_start a_build a_link mod 0x1000 = 0.
Proof.
  destruct (vcore_boundaries_on_pages a_build a_link 12)
    as (_ & _ & Hro & Hrw & _); try reflexivity; try (cbn; lia).
  split; [apply (Hro eq_refl) | apply (Hrw eq_refl)].
Defined.


(** ** The shadow memory of the address sanitizer *)

(** X14.  For addresses below 2^63, the pages mapped for the shadow cover
    the shadow and nothing beyond the pages it touches: [__asan_map_start]
    and [__asan_map_end] are on pages, the first is at or below
    [__asan_shadow_start] by less than a page, the second at or above
    [__asan_shadow_end] by less than a page, and [__asan_map_size] is a
    whole number of pages, at least the length of the shadow. *)
Theorem asan_map_covers_shadow (c : ld_config) :
  0 < SMALL_PAGE_SIZE c < 2 ^ 63 ->
  0 <= __asan_shadow_start c ->
  __asan_shadow_start c <= __asan_shadow_end c ->
  1 <= __asan_shadow_end c < 2 ^ 63 ->
  __asan_map_start c mod SMALL_PAGE_SIZE c = 0 /\
  __asan_map_end c mod SMALL_PAGE_SIZE c = 0 /\
  __asan_map_start c <= __asan_shadow_start c
    < __asan_map_start c + SMALL_PAGE_SIZE c /\
  __asan_shadow_end c <= __asan_map_end c
    < __asan_shadow_end c + SMALL_PAGE_SIZE c /\
  __asan_shadow_end c - __asan_shadow_start c <= __asan_map_size c /\
  __asan_map_size c mod SMALL_PAGE_SIZE c = 0.
Proof.
  intros HP Hs Hse He.
  unfold __asan_map_size, __asan_map_start, __asan_map_end.
  rewrite !ld_div_small by lia.
  set (P := SMALL_PAGE_SIZE c) in *.
  set (a := __asan_shadow_start c) in *. set (b := __asan_shadow_end c) in *.
  pose proof (Z.div_mod a P ltac:(lia)) as Hda.
  pose proof (Z.mod_pos_bound a P ltac:(lia)) as Hba.
  pose proof (Z.div_mod (b - 1) P ltac:(lia)) as Hdb.
  pose proof (Z.mod_pos_bound (b - 1) P ltac:(lia)) as Hbb.
  assert (Hma : (a / P * P) mod P = 0) by (apply Z.mod_mul; lia).
  assert (Hmb : ((b - 1) / P * P + P) mod P = 0).
  { replace ((b - 1) / P * P + P) with (((b - 1) / P + 1) * P) by ring.
    apply Z.mod_mul. lia. }
  split; [exact Hma |]. split; [exact Hmb |].
  split; [lia |]. split; [lia |]. split; [lia |].
  apply mod_sub_0; [lia | assumption..].
Qed.

Lemma asan_map_covers_shadow_witness :
  __asan_map_start a_build <= __asan_shadow_start a_build /\
  __asan_shadow_end a_build <= __asan_map_end a_build.
Proof.
  assert (HP : 0 < SMALL_PAGE_SIZE a_build < 2 ^ 63)
    by (split; reflexivity).
  assert (Hs : 0 <= __asan_shadow_start a_build) by discriminate.
  assert (Hse : __asan_shadow_start a_build <= __asan_shadow_end a_build)
    by discriminate.
  assert (He : 1 <= __asan_shadow_end a_build < 2 ^ 63)
    by (split; [discriminate | reflexivity]).
  destruct (asan_map_covers_shadow a_build HP Hs Hse He)
    as (_ & _ & Hlo & Hhi & _).
  split; [apply Hlo | apply Hhi].
Defined.

(** X15.  The shadow lies inside the core's RAM, behind what it shadows.
    For a RAM of nine bytes or more whose addresses, and eight times whose
    size, stay below 2^63: [__asan_shadow_start] is a multiple of eight,
    not below [TEE_RAM_START]; the shadow is [TEE_RAM_VA_SIZE / 9] bytes
    long and ends before [_end_of_ram], so that the script's assertion on
    the end of RAM cannot fail on its account; when [TEE_RAM_START] is a
    multiple of eight, the shadow holds at least one byte for every eight
    bytes between [TEE_RAM_START] and its own start; and the symbol
    [__asan_shadow_size], assigned inside the output section, is the
    address [__asan_shadow_end], not the length. *)
Theorem asan_shadow_fits (c : ld_config) :
  0 <= TEE_RAM_START c ->
  9 <= TEE_RAM_VA_SIZE c ->
  TEE_RAM_START c + TEE_RAM_VA_SIZE c * 8 < 2 ^ 63 ->
  __asan_shadow_start c mod 8 = 0 /\
  TEE_RAM_START c <= __asan_shadow_start c /\
  __asan_shadow_end c - __asan_shadow_start c = TEE_RAM_VA_SIZE c / 9 /\
  __asan_shadow_end c < _end_of_ram c /\
  (TEE_RAM_START c mod 8 = 0 ->
   __asan_shadow_start c - TEE_RAM_START c <=
   8 * (__asan_shadow_end c - __asan_shadow_start c)) /\
  __asan_shadow_size c = __asan_shadow_end c.
Proof.
  intros HR HV Hmax.
  unfold __asan_shadow_size, __asan_shadow_end, _end_of_ram,
    __asan_shadow_start.
  rewrite !ld_div_small by lia.
  set (x := TEE_RAM_START c + TEE_RAM_VA_SIZE c * 8 / 9 - 8).
  destruct (ALIGN_spec 3 x ltac:(lia)) as [Hm Hb].
  change (2 ^ 3) with 8 in Hm, Hb.
  set (y := ALIGN x 8) in *. unfold x in *. clear x.
  split; [exact Hm |].
  split; [Z.div_mod_to_equations; lia |].
  split; [lia |].
  split; [Z.div_mod_to_equations; lia |].
  split; [| lia].
  intros HR8. Z.div_mod_to_equations. lia.
Qed.

Lemma asan_shadow_fits_witness :
  __asan_shadow_start a_build = 0xde1c71c0 /\
  __asan_shadow_end a_build < _end_of_ram a_build.
Proof.
  split; [reflexivity |].
  apply (asan_shadow_fits a_build); vm_compute; (reflexivity || discriminate).
Defined.

(** * Properties of the platform configuration *)

(** X16.  The SYSRAM is split in a secure part followed by a non-secure
    part, and the two make up the whole.  For a shared memory whose end
    stays below 2^63 (so that the sum in the [#if] does not wrap): when the
    SCMI shared memory is configured (base not zero) and lies inside the
    SYSRAM, the secure part ends where the shared memory starts, so the
    shared memory, and everything above it, is non-secure; in every other
    case the whole SYSRAM is secure.  Non-secure SYSRAM therefore never
    lies below secure SYSRAM. *)
Theorem sysram_split (soc : stm32mp1) (base size : Z) :
  0 <= base ->
  0 <= size ->
  base + size < 2 ^ 63 ->
  0 <= SYSRAM_SEC_SIZE soc base size <= SYSRAM_SIZE soc /\
  SYSRAM_SEC_SIZE soc base size + SYSRAM_NS_SIZE soc base size =
    SYSRAM_SIZE soc /\
  (base <> 0 ->
   SYSRAM_BASE soc <= base ->
   base + size <= SYSRAM_BASE soc + SYSRAM_SIZE soc ->
   SYSRAM_BASE soc + SYSRAM_SEC_SIZE soc base size = base /\
   size <= SYSRAM_NS_SIZE soc base size) /\
  (base = 0 \/ base < SYSRAM_BASE soc \/
   SYSRAM_BASE soc + SYSRAM_SIZE soc < base + size ->
   SYSRAM_SEC_SIZE soc base size = SYSRAM_SIZE soc /\
   SYSRAM_NS_SIZE soc base size = 0) /\
  (SYSRAM_NS_SIZE soc base size <> 0 ->
   SYSRAM_BASE soc + SYSRAM_SEC_SIZE soc base size = base).
Proof.
  intros Hb Hs Hmax.
  unfold SYSRAM_NS_SIZE, SYSRAM_SEC_SIZE, STM32MP1_SCMI_SHM_END.
  rewrite (Z.mod_small (base + size) (2 ^ 64)) by lia.
  assert (Hsize : 0 < SYSRAM_SIZE soc) by (destruct soc; reflexivity).
  destruct (Z.eqb_spec base 0) as [H0 | H0]; cbn [negb andb].
  - repeat split; try lia.
  - rewrite Z.geb_leb.
    destruct (Z.leb_spec (SYSRAM_BASE soc) base) as [H1 | H1]; cbn [andb].
    + destruct (Z.leb_spec (base + size) (SYSRAM_BASE soc + SYSRAM_SIZE soc))
        as [H2 | H2].
      * repeat split; lia.
      * repeat split; lia.
    + repeat split; lia.
Qed.

Lemma sysram_split_witness :
  SYSRAM_BASE CFG_STM32MP15 + SYSRAM_SEC_SIZE CFG_STM32MP15 0x2ffff000 0x1000 =
    0x2ffff000 /\
  0x1000 <= SYSRAM_NS_SIZE CFG_STM32MP15 0x2ffff000 0x1000.
Proof.
  apply (sysram_split CFG_STM32MP15 0x2ffff000 0x1000); cbn; lia.
Defined.
